(** * Quizify: the quiz-attempt session of [src/App.jsx]

    A shallow embedding of the React components that take part in a timed
    quiz attempt, and of the two result views:

    - [QuizAttempt]: the five [useState] cells, the one-second interval
      installed by the mount effect, [handleAnswerSelect], [handleSubmit]
      and the navigation buttons;
    - [UserPanel.getScoreCard] and the result rows of [AdminPanel]: the
      percentage shown for an attempt;
    - [QuizList] (the leaderboard modal) and [AdminPanel.showResults]:
      the order in which entries are listed.

    JavaScript runs these callbacks one at a time on a single thread, so a
    run of the component is a list of events (a tick, a click, a network
    response), each handled to completion by [step]. *)

From Stdlib Require Import ZArith List Permutation Sorted Ascii.
From Stdlib Require Import Floats.SpecFloat Floats.PrimFloat Floats.FloatOps.
From Stdlib Require Import Uint63.
From Stdlib Require Import Rbase Rfunctions Lra Psatz.
From stdpp Require Import gmap strings list fin_maps pretty.

Local Open Scope Z_scope.

(** ** Values delivered by the service *)

(** A question as [QuizAttempt] uses it: its [id] keys the answers; the
    other fields are only rendered.  ([id] is renamed, the name being taken
    by the identity function.) *)
Record Question := mkQuestion {
  question_id : Z;
  questionText : string;
}.

Record Quiz := mkQuiz {
  title : string;
  timeLimitMinutes : Z;
  questions : list Question;
}.

(** The value stored per question by [handleAnswerSelect]:
    [{ selectedOptionId, textAnswer }], each possibly [null]. *)
Record Answer := mkAnswer {
  ans_selectedOptionId : option Z;
  ans_textAnswer : option string;
}.

(** One element of [submissionAnswers]. *)
Record SubmissionAnswer := mkSubmissionAnswer {
  questionId : Z;
  selectedOptionId : option Z;
  textAnswer : option string;
}.

(** The JSON body posted to [/api/quiz/submit] ([window.quizAttemptId] is
    fixed for the life of the component and is left out). *)
Record SubmitBody := mkSubmitBody {
  body_answers : list SubmissionAnswer;
  timeTakenSeconds : Z;
}.

(** A scored attempt as the service delivers it, to the dashboard
    ([/api/quiz/attempts]), to the leaderboard ([/scoreboard]) and to the
    admin results ([/attempts] of a quiz).  The counts are integers. *)
Record AttemptResult := mkAttemptResult {
  userName : string;
  correctAnswers : Z;
  totalQuestions : Z;
  score : Z;
}.

(** ** JavaScript numbers

    [/] and [*] work on IEEE-754 binary64 values; [SpecFloat] is the
    Standard Library's executable definition of that arithmetic (rounding
    to nearest, ties to even). *)

Module JS.

Definition prec : Z := 53.
Definition emax : Z := 1024.

(** The number denoted by an integer literal or an integer JSON field. *)
Definition of_int (z : Z) : spec_float := binary_normalize prec emax z 0 false.

Definition div (x y : spec_float) : spec_float := SFdiv prec emax x y.
Definition mul (x y : spec_float) : spec_float := SFmul prec emax x y.

(** What [Math.round] returns: an integer, or its argument unchanged when
    that is [NaN] or an infinity. *)
Inductive rounded :=
| Integer (z : Z)
| NotANumber
| Infinite (negative : bool).

(** [Math.round(x)]: the integer closest to [x], the larger one when two
    are equally close; on a finite [±m·2^e] that is [⌊±m·2^e + 1/2⌋]. *)
Definition Math_round (x : spec_float) : rounded :=
  match x with
  | S754_zero _ => Integer 0
  | S754_infinity s => Infinite s
  | S754_nan => NotANumber
  | S754_finite s m e =>
      let v := if s then Z.neg m else Z.pos m in
      if 0 <=? e then Integer (v * 2 ^ e)
      else Integer ((2 * v + 2 ^ (- e)) / 2 ^ (1 - e))
  end.

(** [Array.prototype.sort(compareFn)] is required to be stable and to
    order by [compareFn]; the algorithm is left to the engine.  Insertion
    from the right is one such algorithm: [x] moves past exactly the
    elements that [compareFn] puts strictly before it.
    ([sort_unique] shows the result does not depend on this choice.) *)
Fixpoint sort_insert {A} (compareFn : A -> A -> Z) (x : A) (l : list A) : list A :=
  match l with
  | [] => [x]
  | y :: l' =>
      if 0 <? compareFn x y then y :: sort_insert compareFn x l' else x :: l
  end.

Fixpoint Array_sort {A} (compareFn : A -> A -> Z) (l : list A) : list A :=
  match l with
  | [] => []
  | x :: l' => sort_insert compareFn x (Array_sort compareFn l')
  end.

(** A list in which no element has a smaller key than a later one. *)
Definition descending {A} (key : A -> Z) : list A -> Prop :=
  StronglySorted (fun a b => key b <= key a).

End JS.

(** ** The answers object *)

Module AnswerStore.

(** [setAnswers(prev => ({ ...prev, [questionId]: { selectedOptionId,
    textAnswer } }))]: spread the previous object, then write the key. *)
Definition handleAnswerSelect (questionId : Z) (selectedOptionId : option Z)
    (textAnswer : option string) (prev : gmap Z Answer) : gmap Z Answer :=
  <[questionId := mkAnswer selectedOptionId textAnswer]> prev.

(** [Object.entries(answers).map(([qId, ans]) => ({ questionId:
    Number(qId), selectedOptionId: ans.selectedOptionId, textAnswer:
    ans.textAnswer }))].  The keys of the object are the decimal strings
    of the question ids and [Number] reads them back, so the map is keyed
    by the ids themselves.  The entries come in the order of
    [map_to_list], which is not that of [Object.entries] (integer keys
    ascending, then the others as inserted): what is stated of the list
    does not depend on its order. *)
Definition submissionAnswers (answers : gmap Z Answer) : list SubmissionAnswer :=
  (fun '(qId, ans) =>
     mkSubmissionAnswer qId (ans_selectedOptionId ans) (ans_textAnswer ans))
    <$> map_to_list answers.

(** The answers object after a sequence of calls of [handleAnswerSelect],
    oldest first, starting from [useState({})]. *)
Definition selections (calls : list (Z * option Z * option string))
    : gmap Z Answer :=
  foldl (fun m '(q, o, t) => handleAnswerSelect q o t m) ∅ calls.

(** The arguments of the last call for question [q], if there was one. *)
Fixpoint last_call (q : Z) (calls : list (Z * option Z * option string))
    : option Answer :=
  match calls with
  | [] => None
  | (q', o, t) :: rest =>
      match last_call q rest with
      | Some a => Some a
      | None => if decide (q' = q) then Some (mkAnswer o t) else None
      end
  end.

End AnswerStore.

(** ** The score card and the result rows *)

Module UserPanel.

(** What [getScoreCard] puts into the card. *)
Record ScoreCard := mkScoreCard {
  percentage : JS.rounded;
  correct : Z;
  incorrect : Z;
}.

(** [const percentage = Math.round(attempt.correctAnswers /
    attempt.totalQuestions * 100)], then the three figures of the card.
    The difference of the two counts is exact on integers. *)
Definition getScoreCard (attempt : AttemptResult) : ScoreCard :=
  let percentage :=
    JS.Math_round
      (JS.mul (JS.div (JS.of_int (correctAnswers attempt))
                      (JS.of_int (totalQuestions attempt)))
              (JS.of_int 100)) in
  mkScoreCard percentage (correctAnswers attempt)
    (totalQuestions attempt - correctAnswers attempt).

End UserPanel.

Module AdminPanel.

(** The comparator given to [data.sort]:
    [(a,b) => b.correctAnswers - a.correctAnswers]. *)
Definition compareFn (a b : AttemptResult) : Z :=
  correctAnswers b - correctAnswers a.

(** [setAttempts(Array.isArray(data) ? data.sort(compareFn) : [])], on an
    array. *)
Definition showResults (data : list AttemptResult) : list AttemptResult :=
  JS.Array_sort compareFn data.

(** A row of the results table: user, score, correct, incorrect. *)
Record ResultRow := mkResultRow {
  row_user : string;
  row_percentage : JS.rounded;
  row_correct : Z;
  row_incorrect : Z;
}.

(** [attempts.map(a => ...)]: the percentage is computed as in
    [getScoreCard]. *)
Definition resultRows (attempts : list AttemptResult) : list ResultRow :=
  (fun a =>
     mkResultRow (userName a)
       (JS.Math_round
          (JS.mul (JS.div (JS.of_int (correctAnswers a))
                          (JS.of_int (totalQuestions a)))
                  (JS.of_int 100)))
       (correctAnswers a) (totalQuestions a - correctAnswers a))
    <$> attempts.

End AdminPanel.

Module QuizList.

(** [showScoreboard]: the fetched array goes to [setScoreboardData] as it
    is. *)
Definition showScoreboard (results : list AttemptResult) : list AttemptResult :=
  results.

(** An item of the leaderboard modal: [#{index + 1}], the player and
    [{a.score}%]. *)
Record LeaderboardItem := mkLeaderboardItem {
  rank : Z;
  player : AttemptResult;
  playerScore : Z;
}.

(** [scoreboardData.map((a, index) => ...)]. *)
Definition leaderboard (scoreboardData : list AttemptResult) : list LeaderboardItem :=
  imap (fun index a => mkLeaderboardItem (Z.of_nat index + 1) a (score a))
       scoreboardData.

End QuizList.

(** ** The attempt page *)

Module QuizAttempt.

(** How the [fetch] of [handleSubmit] ends. *)
Inductive Response :=
| ResOk (result : AttemptResult)   (* [res.ok], and [res.json()] resolves *)
| ResNotOk                         (* [!res.ok] *)
| ResRejected (message : string).  (* [fetch] or [res.json()] rejects *)

(** Who called [handleSubmit]: the interval callback of the mount effect,
    or the [onClick] of the Submit button. *)
Inductive Caller := ByInterval | ByButton.

(** What the component does to the outside, in order.  [Called] is not an
    effect of the program: it records that [handleSubmit] was entered. *)
Inductive Effect :=
| ApiFetchQuiz                      (* [apiFetch] of the quiz, in [init] *)
| FetchSubmit (body : SubmitBody)   (* [fetch] of [/api/quiz/submit] *)
| Alert (message : string)
| NavigateTo (page : string)
| Called (caller : Caller).

(** The component: its five state cells, and around them the interval
    handle, the page [App] shows, the promises awaited, and what was done
    so far. *)
Record State := mkState {
  quiz : option Quiz;
  currentQuestionIndex : Z;
  answers : gmap Z Answer;
  timeRemaining : option Z;          (* [null] or a number of seconds *)
  submitting : bool;
  interval : bool;                   (* set and not yet cleared *)
  currentPage : string;
  loading : bool;                    (* [init] awaits the quiz *)
  pending : nat;                     (* [handleSubmit]s awaiting [fetch] *)
  quizResult : option AttemptResult; (* [window.quizResult] *)
  trace : list Effect;
}.

(** The constants a render binds, which the [handleSubmit] declared in
    that render reads: [quiz], [answers], [timeRemaining], [submitting]. *)
Record Render := mkRender {
  r_quiz : option Quiz;
  r_answers : gmap Z Answer;
  r_timeRemaining : option Z;
  r_submitting : bool;
}.

(** The render that follows the last state change: its [handleSubmit] is
    the one the Submit button holds. *)
Definition render (st : State) : Render :=
  mkRender (quiz st) (answers st) (timeRemaining st) (submitting st).

(** The first render, with the initial values of [useState].  The mount
    effect has the dependency list [[]], so it runs after this render only,
    and the interval callback it creates keeps calling the [handleSubmit]
    of this render. *)
Definition first_render : Render := mkRender None ∅ None false.

Definition setQuiz (q : Quiz) (st : State) : State :=
  mkState (Some q) (currentQuestionIndex st) (answers st) (timeRemaining st)
    (submitting st) (interval st) (currentPage st) (loading st) (pending st)
    (quizResult st) (trace st).

Definition setCurrentQuestionIndex (f : Z -> Z) (st : State) : State :=
  mkState (quiz st) (f (currentQuestionIndex st)) (answers st)
    (timeRemaining st) (submitting st) (interval st) (currentPage st)
    (loading st) (pending st) (quizResult st) (trace st).

Definition setAnswers (f : gmap Z Answer -> gmap Z Answer) (st : State) : State :=
  mkState (quiz st) (currentQuestionIndex st) (f (answers st))
    (timeRemaining st) (submitting st) (interval st) (currentPage st)
    (loading st) (pending st) (quizResult st) (trace st).

Definition setTimeRemaining (t : Z) (st : State) : State :=
  mkState (quiz st) (currentQuestionIndex st) (answers st) (Some t)
    (submitting st) (interval st) (currentPage st) (loading st) (pending st)
    (quizResult st) (trace st).

Definition setSubmitting (b : bool) (st : State) : State :=
  mkState (quiz st) (currentQuestionIndex st) (answers st) (timeRemaining st)
    b (interval st) (currentPage st) (loading st) (pending st)
    (quizResult st) (trace st).

Definition clearInterval (st : State) : State :=
  mkState (quiz st) (currentQuestionIndex st) (answers st) (timeRemaining st)
    (submitting st) false (currentPage st) (loading st) (pending st)
    (quizResult st) (trace st).

Definition set_loading (b : bool) (st : State) : State :=
  mkState (quiz st) (currentQuestionIndex st) (answers st) (timeRemaining st)
    (submitting st) (interval st) (currentPage st) b (pending st)
    (quizResult st) (trace st).

Definition set_pending (n : nat) (st : State) : State :=
  mkState (quiz st) (currentQuestionIndex st) (answers st) (timeRemaining st)
    (submitting st) (interval st) (currentPage st) (loading st) n
    (quizResult st) (trace st).

Definition set_quizResult (r : AttemptResult) (st : State) : State :=
  mkState (quiz st) (currentQuestionIndex st) (answers st) (timeRemaining st)
    (submitting st) (interval st) (currentPage st) (loading st) (pending st)
    (Some r) (trace st).

Definition emit (e : Effect) (st : State) : State :=
  mkState (quiz st) (currentQuestionIndex st) (answers st) (timeRemaining st)
    (submitting st) (interval st) (currentPage st) (loading st) (pending st)
    (quizResult st) (trace st ++ [e]).

(** [App.navigateTo(page)]: [setCurrentPage(page)]. *)
Definition navigateTo (page : string) (st : State) : State :=
  emit (NavigateTo page)
    (mkState (quiz st) (currentQuestionIndex st) (answers st)
       (timeRemaining st) (submitting st) (interval st) page (loading st)
       (pending st) (quizResult st) (trace st)).

(** The message of the [TypeError] thrown by [quiz.timeLimitMinutes] when
    [quiz] is [null] (the wording is the engine's). *)
Definition TypeError_message : string :=
  "Cannot read properties of null (reading 'timeLimitMinutes')".

(** [null] used as a number is [0]. *)
Definition to_number (t : option Z) : Z :=
  match t with Some n => n | None => 0 end.

(** [Math.ceil((quiz.timeLimitMinutes * 60) - timeRemaining)]; on integers
    [Math.ceil] changes nothing. *)
Definition elapsedSeconds (q : Quiz) (t : option Z) : Z :=
  timeLimitMinutes q * 60 - to_number t.

(** [handleSubmit] up to its first [await], as declared in render [r].
    With [quiz] null the property access throws inside [try]: the [catch]
    alerts, and [setSubmitting(false)] follows, all before the call
    returns.  Otherwise the request leaves and the function waits. *)
Definition handleSubmit (caller : Caller) (r : Render) (st : State) : State :=
  let st := emit (Called caller) st in
  if r_submitting r then st
  else
    let st := setSubmitting true st in
    let submissionAnswers := AnswerStore.submissionAnswers (r_answers r) in
    match r_quiz r with
    | None => setSubmitting false (emit (Alert TypeError_message) st)
    | Some q =>
        let body := mkSubmitBody submissionAnswers
                      (elapsedSeconds q (r_timeRemaining r)) in
        set_pending (S (pending st)) (emit (FetchSubmit body) st)
    end.

(** The rest of [handleSubmit], run when its [fetch] settles. *)
Definition handleSubmit_resume (res : Response) (st : State) : State :=
  match res with
  | ResOk result =>
      setSubmitting false (navigateTo "user-panel" (set_quizResult result st))
  | ResNotOk =>
      setSubmitting false (emit (Alert "Failed to submit quiz") st)
  | ResRejected message =>
      setSubmitting false (emit (Alert message) st)
  end.

(** The function given to [setTimeRemaining] by the interval callback:
    [prev => { if (prev > 0) return prev - 1; else { handleSubmit();
    clearInterval(interval); return 0; } }].  [null > 0] is false.  React
    applies it once per tick (a development build in strict mode would
    apply it twice). *)
Definition tick (st : State) : State :=
  let expired st :=
    setTimeRemaining 0 (clearInterval (handleSubmit ByInterval first_render st)) in
  match timeRemaining st with
  | Some prev => if 0 <? prev then setTimeRemaining (prev - 1) st else expired st
  | None => expired st
  end.

(** [quiz.questions.length]. *)
Definition total (q : Quiz) : Z := Z.of_nat (length (questions q)).

(** What can happen to one instance of the attempt page: its promises
    settle, its interval fires, its controls are used.  What [App] and the
    other pages do (a header link, the Back button, Start Quiz), which
    unmounts the instance or mounts another one, is not among them. *)
Inductive Event :=
| QuizLoaded (quizData : Quiz)     (* the [apiFetch] of [init] resolves *)
| QuizLoadFailed                   (* it rejects *)
| Tick                             (* a second has passed *)
| SelectAnswer (questionId : Z) (selectedOptionId : option Z)
    (textAnswer : option string)
| ClickPrevious
| ClickNext
| ClickSubmit
| SubmitResponse (res : Response). (* a [fetch] of [handleSubmit] settles *)

(** The component is on screen. *)
Definition mounted (st : State) : bool :=
  bool_decide (currentPage st = "quiz-attempt").

(** The handler of one event.  A control that is not rendered, or is
    rendered [disabled], delivers no click; a cleared interval delivers no
    tick; a promise settles once. *)
Definition handle (ev : Event) (st : State) : State :=
  match ev with
  | QuizLoaded quizData =>
      if loading st then
        setTimeRemaining (timeLimitMinutes quizData * 60)
          (setQuiz quizData (set_loading false st))
      else st
  | QuizLoadFailed =>
      (* [init] has no handler for the rejection: its promise is dropped *)
      if loading st then set_loading false st else st
  | Tick => if interval st then tick st else st
  | SelectAnswer questionId selectedOptionId textAnswer =>
      match quiz st with
      | Some _ =>
          if mounted st then
            setAnswers
              (AnswerStore.handleAnswerSelect questionId selectedOptionId textAnswer)
              st
          else st
      | None => st
      end
  | ClickPrevious =>
      match quiz st with
      | Some _ =>
          if mounted st && negb (currentQuestionIndex st =? 0)
          then setCurrentQuestionIndex (fun i => i - 1) st
          else st
      | None => st
      end
  | ClickNext =>
      match quiz st with
      | Some q =>
          if mounted st && negb (currentQuestionIndex st + 1 =? total q)
          then setCurrentQuestionIndex (fun i => i + 1) st
          else st
      | None => st
      end
  | ClickSubmit =>
      match quiz st with
      | Some q =>
          if mounted st && (currentQuestionIndex st + 1 =? total q)
             && negb (submitting st)
          then handleSubmit ByButton (render st) st
          else st
      | None => st
      end
  | SubmitResponse res =>
      match pending st with
      | O => st
      | S n => handleSubmit_resume res (set_pending n st)
      end
  end.

(** After a handler React renders again; when [App] no longer shows the
    attempt page the component unmounts and the cleanup of the mount
    effect, [() => clearInterval(interval)], runs. *)
Definition commit (st : State) : State :=
  if mounted st then st else clearInterval st.

Definition step (st : State) (ev : Event) : State := commit (handle ev st).

Definition run (evs : list Event) (st : State) : State := foldl step st evs.

(** The state before the mount effect. *)
Definition initial : State :=
  mkState None 0 ∅ None false false "quiz-attempt" false 0 None [].

(** The mount effect: [init()] runs up to its [await], then [setInterval].
    [context] says whether [currentUser], [window.currentQuizId] and
    [window.quizAttemptId] are all set. *)
Definition mount (context : bool) : State :=
  let init st :=
    if context then set_loading true (emit ApiFetchQuiz st)
    else navigateTo "quiz" st in
  let setInterval st :=
    mkState (quiz st) (currentQuestionIndex st) (answers st)
      (timeRemaining st) (submitting st) true (currentPage st) (loading st)
      (pending st) (quizResult st) (trace st) in
  commit (setInterval (init initial)).

(** [k] ticks in a row. *)
Definition ticks (k : nat) (st : State) : State := run (replicate k Tick) st.

(** Counting in the trace. *)
Definition is_request (e : Effect) : bool :=
  match e with FetchSubmit _ => true | _ => false end.

Definition is_expiry (e : Effect) : bool :=
  match e with Called ByInterval => true | _ => false end.

Definition is_navigation (e : Effect) : bool :=
  match e with NavigateTo _ => true | _ => false end.

(** The number of submission requests sent so far. *)
Definition requests (st : State) : nat := length (filter is_request (trace st)).

(** The number of times the timer called [handleSubmit]. *)
Definition expiries (st : State) : nat := length (filter is_expiry (trace st)).

End QuizAttempt.

(** ** Times on screen *)

Module Clock.

(** [n] copies of [c] before [s]. *)
Fixpoint pad (n : nat) (c : ascii) (s : string) : string :=
  match n with
  | O => s
  | S n' => String c (pad n' c s)
  end.

(** [s.padStart(targetLength, c)] for a one-character [c]: [s] as it is
    when it is long enough, else filled from the left. *)
Definition padStart (targetLength : nat) (c : ascii) (s : string) : string :=
  pad (targetLength - String.length s) c s.

(** [formatTime] of [QuizAttempt]:
    [const m = Math.floor(seconds / 60); const s = seconds % 60;] and the
    two numbers as decimal strings, each padded to two characters, around
    a colon.  [Math.floor] of the quotient rounds down, [%] keeps the sign
    of [seconds], and [pretty] writes an integer as [toString] does. *)
Definition formatTime (seconds : Z) : string :=
  let m := seconds / 60 in
  let s := Z.rem seconds 60 in
  padStart 2 "0"%char (pretty m) +:+ ":" +:+ padStart 2 "0"%char (pretty s).

(** [formatTimeMMSS] of [QuizList]: ["00:00"] when [totalSeconds] is
    [null] or missing, else the same two fields. *)
Definition formatTimeMMSS (totalSeconds : option Z) : string :=
  match totalSeconds with
  | None => "00:00"
  | Some totalSeconds =>
      let m := totalSeconds / 60 in
      let s := Z.rem totalSeconds 60 in
      padStart 2 "0"%char (pretty m) +:+ ":" +:+ padStart 2 "0"%char (pretty s)
  end.

(** The clock of the attempt page: [formatTime(timeRemaining)]. *)
Definition timer (st : QuizAttempt.State) : string :=
  formatTime (QuizAttempt.to_number (QuizAttempt.timeRemaining st)).

End Clock.

(** ** The colour of the score card *)

Module ScoreColor.

(** [percentage >= k] for an integer [k]: false on [NaN], and on an
    infinity decided by its sign. *)
Definition at_least (percentage : JS.rounded) (k : Z) : bool :=
  match percentage with
  | JS.Integer z => k <=? z
  | JS.NotANumber => false
  | JS.Infinite negative => negb negative
  end.

(** [const scoreColor = percentage >= 80 ? '#10b981' : percentage >= 60 ?
    '#f59e0b' : '#ef4444'] of [getScoreCard]. *)
Definition scoreColor (percentage : JS.rounded) : string :=
  if at_least percentage 80 then "#10b981"
  else if at_least percentage 60 then "#f59e0b"
  else "#ef4444".

End ScoreColor.

(** ** Requests to the service *)

Module Api.

(** The [options] of [apiFetch]; a field that is not given is [None]. *)
Record Options := mkOptions {
  method : option string;
  body : option string;
  headers : option (gmap string string);
}.

(** What [apiFetch] hands to [fetch]: [{ ...options, headers }]. *)
Record Request := mkRequest {
  req_method : option string;
  req_body : option string;
  req_headers : gmap string string;
}.

(** A string used as a condition: [undefined], [null] and [''] are
    false. *)
Definition truthy (s : option string) : bool :=
  match s with
  | Some s => negb (String.eqb s "")
  | None => false
  end.

(** [{ 'Content-Type': 'application/json', ...(options.headers || {}),
    ...(token ? { Authorization: `Bearer ${token}` } : {}) }]: a later
    spread overwrites the keys of an earlier one, as the left operand of
    [∪] does. *)
Definition request_headers (options : Options) (token : option string)
    : gmap string string :=
  (if truthy token
   then {[ "Authorization" := "Bearer " +:+ default "" token ]}
   else ∅)
  ∪ (default ∅ (headers options)
     ∪ {[ "Content-Type" := "application/json" ]}).

Definition request (options : Options) (token : option string) : Request :=
  mkRequest (method options) (body options) (request_headers options token).

(** The response as [apiFetch] reads it; [None] stands for a rejected
    [res.text()] or [res.json()]. *)
Record Response (A : Type) := mkResponse {
  ok : bool;
  status : Z;
  text : option string;
  json : option A;
}.
Arguments mkResponse {A} _ _ _ _.
Arguments ok {A} _.
Arguments status {A} _.
Arguments text {A} _.
Arguments json {A} _.

(** How the promise of [apiFetch] settles. *)
Inductive Settled (A : Type) :=
| Returns (value : A)        (* the parsed body *)
| ReturnsEmptyObject         (* [{}], the body did not parse *)
| Throws (message : string).
Arguments Returns {A} _.
Arguments ReturnsEmptyObject {A}.
Arguments Throws {A} _.

(** [if (!res.ok) { let msg = ''; try { msg = await res.text(); } catch {}
    throw new Error(msg || `HTTP ${res.status}`); }
    try { return await res.json(); } catch { return {}; }] *)
Definition settle {A} (res : Response A) : Settled A :=
  if ok res then
    match json res with
    | Some value => Returns value
    | None => ReturnsEmptyObject
    end
  else
    let msg := default "" (text res) in
    Throws (if String.eqb msg "" then "HTTP " +:+ pretty (status res) else msg).

End Api.

(** ** The pages *)

Module App.

(** The user as the service delivers it at login. *)
Record User := mkUser {
  name : string;
  email : string;
  role : string;
  token : string;
}.

(** What [renderPage] returns: a component, or the result of
    [navigateTo(page)] called while rendering, which shows nothing and
    sets the page. *)
Inductive Rendered :=
| HomePage | AboutPage | LoginPage | AdminPanel | UserPanel | QuizList
| QuizAttempt
| NavigateTo (page : string).

(** [currentUser?.role === r]. *)
Definition has_role (currentUser : option User) (r : string) : bool :=
  match currentUser with
  | Some u => bool_decide (role u = r)
  | None => false
  end.

(** The [switch] of [renderPage]. *)
Definition renderPage (currentPage : string) (currentUser : option User)
    : Rendered :=
  if decide (currentPage = "home") then HomePage
  else if decide (currentPage = "about") then AboutPage
  else if decide (currentPage = "login") then
    match currentUser with Some _ => NavigateTo "home" | None => LoginPage end
  else if decide (currentPage = "admin-panel") then
    if has_role currentUser "ADMIN" then AdminPanel else NavigateTo "home"
  else if decide (currentPage = "user-panel") then
    if has_role currentUser "USER" then UserPanel else NavigateTo "home"
  else if decide (currentPage = "quiz") then QuizList
  else if decide (currentPage = "quiz-attempt") then QuizAttempt
  else HomePage.

(** The two state cells of [App]. *)
Record State := mkState {
  currentPage : string;
  currentUser : option User;
}.

(** [navigateTo(page)]: [setCurrentPage(page)]. *)
Definition navigateTo (page : string) (st : State) : State :=
  mkState page (currentUser st).

(** [handleLogin(user)]: the user is kept, and the page is the panel of
    the role. *)
Definition handleLogin (user : User) (st : State) : State :=
  navigateTo (if bool_decide (role user = "ADMIN") then "admin-panel"
              else "user-panel")
    (mkState (currentPage st) (Some user)).

(** [handleLogout()]. *)
Definition handleLogout (st : State) : State :=
  navigateTo "home" (mkState (currentPage st) None).

(** One render: a component stays, a [navigateTo] sets the page. *)
Definition render (st : State) : State :=
  match renderPage (currentPage st) (currentUser st) with
  | NavigateTo page => navigateTo page st
  | _ => st
  end.

(** What is on screen once rendering has followed a [navigateTo]. *)
Definition on_screen (st : State) : Rendered :=
  renderPage (currentPage (render st)) (currentUser (render st)).

End App.

(** ** Text *)

Module Text.

(** [!s.trim()]: [s] holds nothing but white space and line terminators.
    The string is read as UTF-8: the one-byte ones are TAB, LF, VT, FF,
    CR and SP; the others are U+00A0, U+1680, U+2000 to U+200A, U+2028,
    U+2029, U+202F, U+205F, U+3000 and U+FEFF. *)
Fixpoint blank (s : string) : bool :=
  match s with
  | EmptyString => true
  | String c rest =>
      let b := N_of_ascii c in
      if ((9 <=? b) && (b <=? 13) || (b =? 32))%N then blank rest
      else
        match rest with
        | String c1 rest1 =>
            let b1 := N_of_ascii c1 in
            if ((b =? 194) && (b1 =? 160))%N then blank rest1
            else
              match rest1 with
              | String c2 rest2 =>
                  let b2 := N_of_ascii c2 in
                  if ((b =? 225) && (b1 =? 154) && (b2 =? 128)
                      || (b =? 226) && (b1 =? 128)
                         && ((128 <=? b2) && (b2 <=? 138)
                             || (b2 =? 168) || (b2 =? 169) || (b2 =? 175))
                      || (b =? 226) && (b1 =? 129) && (b2 =? 159)
                      || (b =? 227) && (b1 =? 128) && (b2 =? 128)
                      || (b =? 239) && (b1 =? 187) && (b2 =? 191))%N
                  then blank rest2
                  else false
              | EmptyString => false
              end
        | EmptyString => false
        end
  end.

(** [hay.startsWith(needle)]. *)
Fixpoint starts_with (needle hay : string) : bool :=
  match needle, hay with
  | EmptyString, _ => true
  | String a needle', String b hay' => Ascii.eqb a b && starts_with needle' hay'
  | String _ _, EmptyString => false
  end.

(** [hay.includes(needle)]: [needle] occurs in [hay], at the start or
    further on. *)
Fixpoint includes (needle hay : string) : bool :=
  starts_with needle hay
  || match hay with
     | EmptyString => false
     | String _ hay' => includes needle hay'
     end.

End Text.

(** ** The search of the quiz list *)

Module Search.

(** The effect on [searchTerm] and [quizzes] of [QuizList]: all quizzes
    for a blank term, else those whose title, in lower case, includes the
    term in lower case.  [toLowerCase] is the method of strings, taken as
    it is. *)
Definition filteredQuizzes (toLowerCase : string -> string)
    (searchTerm : string) (quizzes : list Quiz) : list Quiz :=
  if Text.blank searchTerm then quizzes
  else
    List.filter
      (fun quiz =>
         Text.includes (toLowerCase searchTerm) (toLowerCase (title quiz)))
      quizzes.

End Search.

(** ** The quiz form of the admin panel *)

Module QuizForm.

Record OptionForm := mkOption {
  option_id : option Z;
  optionText : string;
  isCorrect : bool;
}.

Record QuestionForm := mkQuestion {
  question_id : option Z;
  questionText : string;
  type : string;                 (* MULTIPLE_CHOICE, TRUE_FALSE or TEXT *)
  points : Z;
  options : list OptionForm;
  correctOptionIndex : option Z; (* [null] or an index, -1 for none *)
  correctText : string;
}.

(** The [quizForm] state. *)
Record Form := mkForm {
  form_id : option Z;
  title : string;
  description : string;
  timeLimitMinutes : Z;
  isActive : bool;
  questions : list QuestionForm;
}.

(** The quiz as the service delivers it to [startEditQuiz] and
    [handleCopyQuiz]; [isCorrect] and [correctText] may be left out. *)
Record OptionDto := mkOptionDto {
  dto_option_id : Z;
  dto_optionText : string;
  dto_isCorrect : option bool;
}.

Record QuestionDto := mkQuestionDto {
  dto_question_id : Z;
  dto_questionText : string;
  dto_type : string;
  dto_points : Z;
  dto_options : list OptionDto;
  dto_correctText : option string;
}.

Record QuizDto := mkQuizDto {
  dto_id : Z;
  dto_title : string;
  dto_description : string;
  dto_timeLimitMinutes : Z;
  dto_isActive : bool;
  dto_questions : list QuestionDto;
}.

(** [startCreateQuiz]: the empty form. *)
Definition startCreateQuiz : Form := mkForm None "" "" 30 true [].

(** [startEditQuiz], once the quiz has arrived: every option comes in
    with [isCorrect: false]. *)
Definition startEditQuiz (dto : QuizDto) : Form :=
  mkForm (Some (dto_id dto)) (dto_title dto) (dto_description dto)
    (dto_timeLimitMinutes dto) (dto_isActive dto)
    ((fun qd =>
        mkQuestion (Some (dto_question_id qd)) (dto_questionText qd)
          (dto_type qd) (dto_points qd)
          ((fun o => mkOption (Some (dto_option_id o)) (dto_optionText o) false)
             <$> dto_options qd)
          None (default "" (dto_correctText qd)))
       <$> dto_questions dto).

(** [array.findIndex(f)]: the first index at which [f] holds, or -1. *)
Fixpoint findIndex {A} (f : A -> bool) (l : list A) : Z :=
  match l with
  | [] => -1
  | x :: l' =>
      if f x then 0
      else let i := findIndex f l' in if i =? -1 then -1 else i + 1
  end.

(** [handleCopyQuiz], once the quiz has arrived: no id is kept,
    [isCorrect] is [o.isCorrect || false], and the title gets a prefix. *)
Definition handleCopyQuiz (dto : QuizDto) : Form :=
  mkForm None ("Copy of " +:+ dto_title dto) (dto_description dto)
    (dto_timeLimitMinutes dto) (dto_isActive dto)
    ((fun qd =>
        mkQuestion None (dto_questionText qd) (dto_type qd) (dto_points qd)
          ((fun o =>
              mkOption None (dto_optionText o) (default false (dto_isCorrect o)))
             <$> dto_options qd)
          (Some (findIndex (fun o => default false (dto_isCorrect o))
                   (dto_options qd)))
          (default "" (dto_correctText qd)))
       <$> dto_questions dto).

(** The edits of [renderQuizForm], by the index [i] of the question and
    [oi] of the option they are rendered for. *)
Inductive Edit :=
| SetTitle (v : string)
| SetDescription (v : string)
| SetTimeLimit (v : Z)
| SetActive (v : bool)
| SetQuestionText (i : nat) (v : string)
| SetType (i : nat) (v : string)
| SetPoints (i : nat) (v : Z)
| SetCorrectText (i : nat) (v : string)
| SelectCorrect (i oi : nat)
| SetOptionText (i oi : nat) (v : string)
| DeleteOption (i oi : nat)
| AddOption (i : nat)
| RemoveQuestion (i : nat)
| AddQuestion.

Definition set_questions (f : list QuestionForm -> list QuestionForm)
    (form : Form) : Form :=
  mkForm (form_id form) (title form) (description form)
    (timeLimitMinutes form) (isActive form) (f (questions form)).

Definition set_options (f : list OptionForm -> list OptionForm)
    (q : QuestionForm) : QuestionForm :=
  mkQuestion (question_id q) (questionText q) (type q) (points q)
    (f (options q)) (correctOptionIndex q) (correctText q).

(** The option controls are rendered for these two types. *)
Definition has_options (q : QuestionForm) : bool :=
  bool_decide (type q = "MULTIPLE_CHOICE") || bool_decide (type q = "TRUE_FALSE").

(** The question that [+ Add Question] appends. *)
Definition new_question : QuestionForm :=
  mkQuestion None "" "MULTIPLE_CHOICE" 1 [mkOption None "" true] None "".

(** One edit.  A control exists for the questions and options that are
    rendered: the option controls for a question with options, [Delete]
    when it has more than two, [Add Option] when it has fewer than four;
    an edit that has no control changes nothing. *)
Definition edit (e : Edit) (form : Form) : Form :=
  match e with
  | SetTitle v =>
      mkForm (form_id form) v (description form) (timeLimitMinutes form)
        (isActive form) (questions form)
  | SetDescription v =>
      mkForm (form_id form) (title form) v (timeLimitMinutes form)
        (isActive form) (questions form)
  | SetTimeLimit v =>
      mkForm (form_id form) (title form) (description form) v
        (isActive form) (questions form)
  | SetActive v =>
      mkForm (form_id form) (title form) (description form)
        (timeLimitMinutes form) v (questions form)
  | SetQuestionText i v =>
      set_questions
        (alter (fun q =>
                  mkQuestion (question_id q) v (type q) (points q) (options q)
                    (correctOptionIndex q) (correctText q)) i) form
  | SetType i v =>
      set_questions
        (alter (fun q =>
                  if bool_decide (v = "TEXT")
                  then mkQuestion (question_id q) (questionText q) v (points q)
                         [] (correctOptionIndex q) ""
                  else mkQuestion (question_id q) (questionText q) v (points q)
                         (options q) (correctOptionIndex q) (correctText q)) i)
        form
  | SetPoints i v =>
      set_questions
        (alter (fun q =>
                  mkQuestion (question_id q) (questionText q) (type q) v
                    (options q) (correctOptionIndex q) (correctText q)) i) form
  | SetCorrectText i v =>
      set_questions
        (alter (fun q =>
                  if bool_decide (type q = "TEXT")
                  then mkQuestion (question_id q) (questionText q) (type q)
                         (points q) (options q) (correctOptionIndex q) v
                  else q) i) form
  | SelectCorrect i oi =>
      set_questions
        (alter (fun q =>
                  if has_options q && bool_decide (oi < length (options q))%nat
                  then set_options
                         (imap (fun idx oo =>
                                  mkOption (option_id oo) (optionText oo)
                                    (bool_decide (idx = oi)))) q
                  else q) i) form
  | SetOptionText i oi v =>
      set_questions
        (alter (fun q =>
                  if has_options q
                  then set_options
                         (alter (fun oo => mkOption (option_id oo) v (isCorrect oo))
                            oi) q
                  else q) i) form
  | DeleteOption i oi =>
      set_questions
        (alter (fun q =>
                  if has_options q && (2 <? length (options q))%nat
                  then set_options (delete oi) q
                  else q) i) form
  | AddOption i =>
      set_questions
        (alter (fun q =>
                  if has_options q && (length (options q) <? 4)%nat
                  then set_options (fun os => os ++ [mkOption None "" false]) q
                  else q) i) form
  | RemoveQuestion i => set_questions (delete i) form
  | AddQuestion => set_questions (fun qs => qs ++ [new_question]) form
  end.

Definition edits (es : list Edit) (form : Form) : Form :=
  foldl (fun f e => edit e f) form es.

(** A question of the payload of [handleQuizSave]; [None] is
    [undefined]. *)
Record PayloadQuestion := mkPayloadQuestion {
  p_questionText : string;
  p_type : string;
  p_points : Z;
  p_options : list string;
  p_correctOptionIndex : option Z;
  p_correctText : option string;
}.

Record Payload := mkPayload {
  p_title : string;
  p_description : string;
  p_timeLimitMinutes : Z;
  p_isActive : bool;
  p_questions : list PayloadQuestion;
}.

Definition payload_question (q : QuestionForm) : PayloadQuestion :=
  if bool_decide (type q = "TEXT")
  then mkPayloadQuestion (questionText q) (type q) (points q) [] None
         (Some (correctText q))
  else mkPayloadQuestion (questionText q) (type q) (points q)
         (optionText <$> options q) (Some (findIndex isCorrect (options q)))
         None.

Definition payload (form : Form) : Payload :=
  mkPayload (title form) (description form) (timeLimitMinutes form)
    (isActive form) (payload_question <$> questions form).

(** The [for] loop of [handleQuizSave]: the alert of the first question
    that fails a check, if one does. *)
Fixpoint first_complaint (qs : list QuestionForm) : option string :=
  match qs with
  | [] => None
  | q :: rest =>
      if Text.blank (questionText q) then Some "All questions need text"
      else if negb (bool_decide (type q = "TEXT")) then
        if (length (options q) <? 2)%nat then Some "Need options"
        else if negb (existsb isCorrect (options q))
        then Some "Select correct option"
        else first_complaint rest
      else if Text.blank (correctText q)
      then Some "Text questions need correct answer"
      else first_complaint rest
  end.

(** What [handleQuizSave] does: an alert, or a request with the payload,
    [PUT] to the quiz of the form's id when it has one ([null] and 0 are
    none), else [POST]. *)
Inductive Saved :=
| Alerts (message : string)
| Puts (id : Z) (p : Payload)
| Posts (p : Payload).

Definition handleQuizSave (form : Form) : Saved :=
  if Text.blank (title form) || (length (questions form) <? 1)%nat
  then Alerts "Title and at least 1 question required"
  else
    match first_complaint (questions form) with
    | Some message => Alerts message
    | None =>
        match form_id form with
        | Some id => if id =? 0 then Posts (payload form) else Puts id (payload form)
        | None => Posts (payload form)
        end
    end.

End QuizForm.

(** * Statements

    The words of the specification, and the attempts used as examples. *)

Import QuizAttempt.

(** ** Ranking and rounding *)

(** Four entries with the scores 80, 95, 95, 60, in this order. *)
Definition four_entries : list AttemptResult :=
  [ mkAttemptResult "ann" 16 20 80; mkAttemptResult "bob" 19 20 95;
    mkAttemptResult "cat" 19 20 95; mkAttemptResult "dan" 12 20 60 ].

(** The rank, player and score of each item. *)
Definition shown (items : list QuizList.LeaderboardItem) : list (Z * string * Z) :=
  (fun it => (QuizList.rank it, userName (QuizList.player it),
              QuizList.playerScore it)) <$> items.

(** [num / den] rounded to the nearest integer, halves upwards, in exact
    arithmetic: the percentage as the specification words it. *)
Definition round_half_up (num den : Z) : Z := (2 * num + den) / (2 * den).

(** The exact percentage of [c] out of [n] is a half: [100 c / n] is
    [k + 1/2] for an integer [k]. *)
Definition half_percent (c n : Z) : bool := (200 * c) mod (2 * n) =? n.

(** The card of [c] correct answers out of [n] shows the exactly rounded
    percentage, except when [c] is to [n] as 23 is to 40, where it shows
    one less. *)
Definition card_exact (c n : Z) : bool :=
  match UserPanel.percentage (UserPanel.getScoreCard (mkAttemptResult "" c n 0)) with
  | JS.Integer p =>
      p =? (if 40 * c =? 23 * n then round_half_up (100 * c) n - 1
            else round_half_up (100 * c) n)
  | _ => false
  end.

(** [card_exact] for every [c ≤ n] and every [n] from 1 to [N]. *)
Definition cards_exact_upto (N : nat) : bool :=
  forallb
    (fun n =>
       forallb (fun c => card_exact (Z.of_nat c) (Z.of_nat n)) (seq 0 (S n)))
    (seq 1 N).

(** ** Doubles as numbers *)



(** ** Attempts *)

(** A quiz of one minute with two questions. *)
Definition sample_quiz : Quiz :=
  mkQuiz "Rivers" 1 [mkQuestion 7 "Longest?"; mkQuestion 9 "Widest?"].

(** The attempt just after its quiz has arrived: 60 seconds remain. *)
Definition started : State := run [QuizLoaded sample_quiz] (mount true).

(** One answer given, the last question on screen, the Submit button
    shown. *)
Definition last_question : State :=
  run [SelectAnswer 7 (Some 3) None; ClickNext] started.

(** The same after 60 ticks: the clock shows 0 and the interval is live. *)
Definition out_of_time : State := ticks 60 last_question.

(** An attempt at a quiz of a single question: index 0 is also the last. *)
Definition single_question : State :=
  run [QuizLoaded (mkQuiz "Solo" 1 [mkQuestion 1 "Only?"])] (mount true).

(** An attempt that has no quiz, awaits none, and has sent nothing. *)
Definition stuck (st : State) : Prop :=
  quiz st = None ∧ loading st = false ∧ pending st = 0%nat.

(** The index is one of the questions of the quiz, and 0 while there is
    no quiz. *)
Definition in_range (st : State) : Prop :=
  match quiz st with
  | Some q => 0 ≤ currentQuestionIndex st < total q
  | None => currentQuestionIndex st = 0
  end.

(** The quiz an event delivers, if it delivers one, has a question. *)
Definition loads_questions (ev : Event) : bool :=
  match ev with
  | QuizLoaded quizData => 1 <=? total quizData
  | _ => true
  end.

(** What navigation keeps true: the index is in range, and a quiz is
    awaited only while there is none. *)
Definition navigable (st : State) : Prop :=
  in_range st ∧ (loading st = true → quiz st = None).

(** ** Runs of the attempt page *)

(** The selections among the events, oldest first, as arguments of
    [handleAnswerSelect]. *)
Definition calls_of (evs : list Event) : list (Z * option Z * option string) :=
  omap (fun ev =>
          match ev with
          | SelectAnswer q o t => Some (q, o, t)
          | _ => None
          end) evs.

(** The event is a successful response: the one that leaves the page. *)
Definition leaves_page (ev : Event) : bool :=
  match ev with
  | SubmitResponse (ResOk _) => true
  | _ => false
  end.

(** The seconds the loaded quiz allows, 0 while there is none. *)
Definition seconds_allowed (st : State) : Z :=
  match quiz st with
  | Some q => timeLimitMinutes q * 60
  | None => 0
  end.

(** The time reported by a request lies between 0 and [limit]. *)
Definition reported_within (limit : Z) (e : Effect) : Prop :=
  match e with
  | FetchSubmit body => 0 ≤ timeTakenSeconds body ≤ limit
  | _ => True
  end.

(** The quiz an event delivers, if it delivers one, has a time limit that
    is not negative. *)
Definition loads_time (ev : Event) : bool :=
  match ev with
  | QuizLoaded quizData => 0 <=? timeLimitMinutes quizData
  | _ => true
  end.

(** ** Quiz forms *)

(** A question that [handleQuizSave] accepts: it has text; a text
    question has a correct answer, any other has two options or more, one
    of them marked correct. *)
Definition ok_question (q : QuizForm.QuestionForm) : Prop :=
  Text.blank (QuizForm.questionText q) = false
  ∧ if bool_decide (QuizForm.type q = "TEXT")
    then Text.blank (QuizForm.correctText q) = false
    else (2 ≤ length (QuizForm.options q))%nat
         ∧ Exists (fun o => QuizForm.isCorrect o = true) (QuizForm.options q).

(** A form that [handleQuizSave] accepts. *)
Definition savable (form : QuizForm.Form) : Prop :=
  Text.blank (QuizForm.title form) = false
  ∧ QuizForm.questions form ≠ []
  ∧ Forall ok_question (QuizForm.questions form).

(** A question of a payload that the service can score: a text question
    carries its answer and nothing else; any other carries two options or
    more and the index of one of them. *)
Definition well_formed (pq : QuizForm.PayloadQuestion) : Prop :=
  Text.blank (QuizForm.p_questionText pq) = false
  ∧ ((QuizForm.p_type pq = "TEXT"
      ∧ QuizForm.p_options pq = []
      ∧ QuizForm.p_correctOptionIndex pq = None
      ∧ ∃ t, QuizForm.p_correctText pq = Some t ∧ Text.blank t = false)
     ∨ (QuizForm.p_type pq ≠ "TEXT"
        ∧ (2 ≤ length (QuizForm.p_options pq))%nat
        ∧ QuizForm.p_correctText pq = None
        ∧ ∃ i, QuizForm.p_correctOptionIndex pq = Some i
               ∧ 0 ≤ i < Z.of_nat (length (QuizForm.p_options pq)))).

(** No question of the form has more than four options. *)
Definition at_most_four (form : QuizForm.Form) : Prop :=
  Forall (fun q => (length (QuizForm.options q) ≤ 4)%nat)
    (QuizForm.questions form).

(** ** Leaving the page *)



(** ** The clock of a run *)

(** What the handlers keep true of the clock: a quiz is awaited only
    while there is none, the time remaining lies between 0 and the time
    allowed, and so does the time reported by every request sent. *)
Definition on_time (st : State) : Prop :=
  (loading st = true → quiz st = None)
  ∧ (∀ q, quiz st = Some q →
       0 ≤ timeLimitMinutes q
       ∧ ∃ t, timeRemaining st = Some t ∧ 0 ≤ t ≤ timeLimitMinutes q * 60)
  ∧ Forall (reported_within (seconds_allowed st)) (trace st).

(** ** Times on screen *)

(** Every number below 100 is written, padded, with two characters; and
    a number below 10 with a 0 before its digit. *)
Definition two_digits (n : nat) : bool :=
  bool_decide (String.length (Clock.padStart 2 "0" (pretty (Z.of_nat n))) = 2%nat)
  && (if (n <? 10)%nat
      then bool_decide (Clock.padStart 2 "0" (pretty (Z.of_nat n))
                        = String "0" (pretty (Z.of_nat n)))
      else true).

(** ** Searches *)

(** [toLowerCase] on text in ASCII: the letters A to Z become a to z and
    every other character is kept. *)
Definition lower_ascii (c : ascii) : ascii :=
  let n := N_of_ascii c in
  if ((65 <=? n) && (n <=? 90))%N then ascii_of_N (n + 32) else c.

Fixpoint lower (s : string) : string :=
  match s with
  | EmptyString => EmptyString
  | String c rest => String (lower_ascii c) (lower rest)
  end.

(** * Properties *)

(** ** The answers object *)

Lemma selections_snoc calls q o t :
  AnswerStore.selections (calls ++ [(q, o, t)])
  = AnswerStore.handleAnswerSelect q o t (AnswerStore.selections calls).
Proof. unfold AnswerStore.selections. by rewrite foldl_app. Qed.

Lemma last_call_snoc q calls q' o t :
  AnswerStore.last_call q (calls ++ [(q', o, t)])
  = if decide (q' = q) then Some (mkAnswer o t)
    else AnswerStore.last_call q calls.
Proof.
  induction calls as [|[[q1 o1] t1] calls IH]; simpl; [done|].
  rewrite IH. by case_decide.
Qed.

(** The stored answer of a question is the one of the last call for it. *)
Lemma selections_lookup calls q :
  AnswerStore.selections calls !! q = AnswerStore.last_call q calls.
Proof.
  induction calls as [|[[q' o] t] calls IH] using rev_ind; [done|].
  rewrite selections_snoc, last_call_snoc. unfold AnswerStore.handleAnswerSelect.
  rewrite lookup_insert. by case_decide.
Qed.

Lemma last_call_None q calls :
  AnswerStore.last_call q calls = None ↔ q ∉ (fun c => c.1.1) <$> calls.
Proof.
  induction calls as [|[[q' o] t] calls IH]; simpl.
  - split; [intros _; apply not_elem_of_nil | done].
  - rewrite not_elem_of_cons. destruct (AnswerStore.last_call q calls) eqn:E.
    + split; [done|]. intros [_ H]. by apply IH in H.
    + case_decide; subst.
      * split; [done|]. by intros [H _].
      * split; [|done]. intros _. split; [done|]. by apply IH.
Qed.

Lemma elem_of_submissionAnswers (answers : gmap Z Answer) e :
  e ∈ AnswerStore.submissionAnswers answers
  ↔ answers !! questionId e
    = Some (mkAnswer (selectedOptionId e) (textAnswer e)).
Proof.
  unfold AnswerStore.submissionAnswers. rewrite list_elem_of_fmap. split.
  - intros [[q [o t]] [-> H]]. simpl. by apply elem_of_map_to_list in H.
  - intros H.
    exists (questionId e, mkAnswer (selectedOptionId e) (textAnswer e)).
    split; [by destruct e|]. by apply elem_of_map_to_list.
Qed.

Lemma submissionAnswers_ids (answers : gmap Z Answer) :
  questionId <$> AnswerStore.submissionAnswers answers
  = (map_to_list answers).*1.
Proof.
  unfold AnswerStore.submissionAnswers. rewrite <- list_fmap_compose.
  apply list_fmap_ext. by intros _ [q a] _.
Qed.

(** C9.  Writing the answer of a question twice leaves one answer, the
    second; other questions are untouched; the stored answer after any
    sequence of selections is that of the last selection for the question;
    and the submission list has one entry per stored answer, carrying its
    two fields, no two entries for one question, and no entry for a
    question that was never answered. *)
Theorem C9_answer_store
    (answers : gmap Z Answer) (q : Z) (o1 o2 : option Z) (t1 t2 : option string)
    (calls : list (Z * option Z * option string)) :
  AnswerStore.handleAnswerSelect q o2 t2
    (AnswerStore.handleAnswerSelect q o1 t1 answers)
  = AnswerStore.handleAnswerSelect q o2 t2 answers
  ∧ AnswerStore.handleAnswerSelect q o2 t2 answers !! q = Some (mkAnswer o2 t2)
  ∧ (∀ q', q' ≠ q →
       AnswerStore.handleAnswerSelect q o2 t2 answers !! q' = answers !! q')
  ∧ (∀ q', AnswerStore.selections calls !! q' = AnswerStore.last_call q' calls)
  ∧ NoDup (questionId <$> AnswerStore.submissionAnswers answers)
  ∧ length (AnswerStore.submissionAnswers answers) = size answers
  ∧ (∀ e, e ∈ AnswerStore.submissionAnswers answers
          ↔ answers !! questionId e
            = Some (mkAnswer (selectedOptionId e) (textAnswer e)))
  ∧ (∀ q' e, q' ∉ (fun c => c.1.1) <$> calls →
       e ∈ AnswerStore.submissionAnswers (AnswerStore.selections calls) →
       questionId e ≠ q').
Proof.
  repeat split.
  - unfold AnswerStore.handleAnswerSelect. apply insert_insert_eq.
  - unfold AnswerStore.handleAnswerSelect. apply lookup_insert_eq.
  - intros q' Hne. unfold AnswerStore.handleAnswerSelect.
    by apply lookup_insert_ne.
  - intros q'. apply selections_lookup.
  - rewrite submissionAnswers_ids. apply NoDup_fst_map_to_list.
  - unfold AnswerStore.submissionAnswers. by rewrite length_fmap, length_map_to_list.
  - by apply elem_of_submissionAnswers.
  - by apply elem_of_submissionAnswers.
  - intros q' e Hq He <-. apply elem_of_submissionAnswers in He.
    rewrite selections_lookup in He. apply last_call_None in Hq. congruence.
Qed.

(** ** Sorting by a comparator [(a, b) => key(b) - key(a)] *)

Section Sorting.

Context {A : Type} (key : A → Z) (by_key : A → A → Z).
Hypothesis by_key_spec : ∀ a b, by_key a b = key b - key a.

Lemma sort_insert_perm x l : JS.sort_insert by_key x l ≡ₚ x :: l.
Proof.
  induction l as [|y l IH]; simpl; [done|].
  destruct (0 <? by_key x y); [|done].
  rewrite IH. apply Permutation_swap.
Qed.

Lemma Array_sort_perm l : JS.Array_sort by_key l ≡ₚ l.
Proof.
  induction l as [|x l IH]; simpl; [done|].
  rewrite sort_insert_perm. by f_equiv.
Qed.

Lemma sort_insert_descending x l :
  JS.descending key l → JS.descending key (JS.sort_insert by_key x l).
Proof.
  unfold JS.descending. induction 1 as [|y l Hl IH Hy]; simpl.
  - repeat constructor.
  - rewrite by_key_spec. destruct (Z.ltb_spec 0 (key y - key x)).
    + constructor; [done|].
      rewrite sort_insert_perm. constructor; [lia | done].
    + constructor; [by constructor|].
      constructor; [lia|].
      eapply Forall_impl; [exact Hy|]. simpl. lia.
Qed.

Lemma Array_sort_descending l : JS.descending key (JS.Array_sort by_key l).
Proof.
  induction l as [|x l IH]; simpl; [constructor|].
  by apply sort_insert_descending.
Qed.

(** Insertion keeps the order among the elements of one key. *)
Lemma sort_insert_stable k x l :
  filter (fun a => key a = k) (JS.sort_insert by_key x l)
  = filter (fun a => key a = k) (x :: l).
Proof.
  induction l as [|y l IH]; simpl; [done|]. rewrite by_key_spec.
  destruct (Z.ltb_spec 0 (key y - key x)); [|done].
  rewrite filter_cons, IH, !filter_cons.
  repeat case_decide; try done; lia.
Qed.

Lemma Array_sort_stable k l :
  filter (fun a => key a = k) (JS.Array_sort by_key l)
  = filter (fun a => key a = k) l.
Proof.
  induction l as [|x l IH]; simpl; [done|].
  by rewrite sort_insert_stable, !filter_cons, IH.
Qed.

(** A descending list is determined by its elements of each key, in
    order: every stable sort by this comparator returns the same list. *)
Lemma descending_unique l1 l2 :
  JS.descending key l1 → JS.descending key l2 →
  (∀ k, filter (fun a => key a = k) l1 = filter (fun a => key a = k) l2) →
  l1 = l2.
Proof.
  intros H1. revert l2. induction H1 as [|a l1 Hl1 IH Ha]; intros l2 H2 Hf.
  - destruct l2 as [|b l2]; [done|].
    specialize (Hf (key b)). rewrite filter_cons in Hf.
    by rewrite decide_True in Hf.
  - destruct H2 as [|b l2 Hl2 Hb].
    + specialize (Hf (key a)). rewrite filter_cons in Hf.
      by rewrite decide_True in Hf.
    + assert (key a = key b) as Hk.
      { apply Z.le_antisymm.
        - assert (a ∈ filter (fun x => key x = key a) (b :: l2)) as Hin.
          { rewrite <- Hf, filter_cons, decide_True by done. left. }
          apply list_elem_of_filter in Hin as [_ Hin].
          apply elem_of_cons in Hin as [->|Hin]; [done|].
          rewrite Forall_forall in Hb. by apply Hb.
        - assert (b ∈ filter (fun x => key x = key b) (a :: l1)) as Hin.
          { rewrite Hf, filter_cons, decide_True by done. left. }
          apply list_elem_of_filter in Hin as [_ Hin].
          apply elem_of_cons in Hin as [->|Hin]; [done|].
          rewrite Forall_forall in Ha. by apply Ha. }
      assert (a = b) as ->.
      { specialize (Hf (key a)). rewrite !filter_cons in Hf.
        rewrite decide_True in Hf by done.
        rewrite decide_True in Hf by done. congruence. }
      f_equal. apply IH; [done|]. intros k. specialize (Hf k).
      rewrite !filter_cons in Hf. case_decide; congruence.
Qed.

Lemma sort_unique l l' :
  JS.descending key l' →
  (∀ k, filter (fun a => key a = k) l' = filter (fun a => key a = k) l) →
  l' = JS.Array_sort by_key l.
Proof.
  intros Hd Hf. apply descending_unique; [done | apply Array_sort_descending |].
  intros k. by rewrite Array_sort_stable.
Qed.

End Sorting.

(** ** The leaderboard and the admin results *)

Lemma leaderboard_lookup (scoreboardData : list AttemptResult) (i : nat) :
  QuizList.leaderboard scoreboardData !! i
  = (fun a => QuizList.mkLeaderboardItem (Z.of_nat i + 1) a (score a))
      <$> scoreboardData !! i.
Proof. unfold QuizList.leaderboard. apply list_lookup_imap. Qed.

(** C5, as stated, fails: the leaderboard does not sort.  On the scores
    80, 95, 95, 60 rank 1 goes to the entry scored 80, where a ranking by
    score would put the first 95. *)
Lemma C5_leaderboard_is_not_sorted :
  shown (QuizList.leaderboard (QuizList.showScoreboard four_entries))
  = [ (1, "ann", 80); (2, "bob", 95); (3, "cat", 95); (4, "dan", 60) ]
  ∧ shown (QuizList.leaderboard (QuizList.showScoreboard four_entries))
    ≠ [ (1, "bob", 95); (2, "cat", 95); (3, "ann", 80); (4, "dan", 60) ].
Proof. split; [reflexivity | discriminate]. Qed.

(** C5, amended.  The leaderboard lists the entries in the order
    delivered, each with its delivered [score] and the position
    [index + 1]; only the admin results are ordered: by [correctAnswers],
    larger first, by a stable sort and with nothing else to break ties, so
    that entries with equal [correctAnswers] keep their input order.  On
    the scores 80, 95, 95, 60 the leaderboard shows 80, 95, 95, 60 at the
    ranks 1 to 4. *)
Theorem C5_leaderboard_order (scoreboardData data : list AttemptResult) :
  length (QuizList.leaderboard (QuizList.showScoreboard scoreboardData))
  = length scoreboardData
  ∧ (∀ (i : nat) a, scoreboardData !! i = Some a →
       QuizList.leaderboard (QuizList.showScoreboard scoreboardData) !! i
       = Some (QuizList.mkLeaderboardItem (Z.of_nat i + 1) a (score a)))
  ∧ AdminPanel.showResults data ≡ₚ data
  ∧ JS.descending correctAnswers (AdminPanel.showResults data)
  ∧ (∀ k, filter (fun a => correctAnswers a = k) (AdminPanel.showResults data)
          = filter (fun a => correctAnswers a = k) data)
  ∧ (∀ l', JS.descending correctAnswers l' →
       (∀ k, filter (fun a => correctAnswers a = k) l'
             = filter (fun a => correctAnswers a = k) data) →
       l' = AdminPanel.showResults data)
  ∧ shown (QuizList.leaderboard (QuizList.showScoreboard four_entries))
    = [ (1, "ann", 80); (2, "bob", 95); (3, "cat", 95); (4, "dan", 60) ].
Proof.
  assert (∀ a b, AdminPanel.compareFn a b = correctAnswers b - correctAnswers a)
    as Hcmp by done.
  unfold QuizList.showScoreboard, AdminPanel.showResults.
  split_and!.
  - unfold QuizList.leaderboard. apply length_imap.
  - intros i a Hi. by rewrite leaderboard_lookup, Hi.
  - apply Array_sort_perm.
  - by apply Array_sort_descending.
  - intros k. by apply Array_sort_stable.
  - intros l' Hd Hf. by apply (sort_unique correctAnswers).
  - reflexivity.
Qed.

(** ** The percentage of the score card *)

Lemma cards_exact_upto_100 : cards_exact_upto 100 = true.
Proof. vm_compute. reflexivity. Qed.

Lemma getScoreCard_percentage_ext a b :
  correctAnswers a = correctAnswers b → totalQuestions a = totalQuestions b →
  UserPanel.percentage (UserPanel.getScoreCard a)
  = UserPanel.percentage (UserPanel.getScoreCard b).
Proof. unfold UserPanel.getScoreCard. simpl. by intros -> ->. Qed.

(** What the evaluation of [cards_exact_upto] says of one card. *)
Lemma cards_exact_below (N : nat) (c n : Z) :
  cards_exact_upto N = true →
  0 ≤ c ≤ n → 0 < n ≤ Z.of_nat N → card_exact c n = true.
Proof.
  intros H Hc Hn.
  unfold cards_exact_upto in H. rewrite forallb_forall in H.
  specialize (H (Z.to_nat n)). rewrite forallb_forall in H.
  specialize (H ltac:(apply in_seq; lia) (Z.to_nat c) ltac:(apply in_seq; lia)).
  by rewrite !Z2Nat.id in H by lia.
Qed.

Lemma card_exact_small (c n : Z) :
  0 ≤ c ≤ n → 0 < n ≤ 100 → card_exact c n = true.
Proof.
  intros Hc Hn. apply (cards_exact_below 100); [|done|lia].
  exact cards_exact_upto_100.
Qed.

(** The rows of the admin results show the figures of the score card. *)
Lemma resultRows_getScoreCard (attempts : list AttemptResult) (i : nat) a :
  attempts !! i = Some a →
  AdminPanel.resultRows attempts !! i
  = Some (AdminPanel.mkResultRow (userName a)
            (UserPanel.percentage (UserPanel.getScoreCard a))
            (UserPanel.correct (UserPanel.getScoreCard a))
            (UserPanel.incorrect (UserPanel.getScoreCard a))).
Proof.
  intros H. unfold AdminPanel.resultRows. by rewrite list_lookup_fmap, H.
Qed.

(** The machine's binary64 arithmetic gives the same product for 23 of
    40 as [JS.mul] and [JS.div] do: 57.499999999999993. *)
Lemma product_23_of_40_on_the_machine :
  Prim2SF
    (PrimFloat.mul
       (PrimFloat.div (PrimFloat.of_uint63 23%uint63)
          (PrimFloat.of_uint63 40%uint63))
       (PrimFloat.of_uint63 100%uint63))
  = JS.mul (JS.div (JS.of_int 23) (JS.of_int 40)) (JS.of_int 100).
Proof. vm_compute. reflexivity. Qed.


(** *** Doubles

    [SpecFloat] computes a quotient or a product exactly, as an integer
    mantissa with the place of what is left over, then shifts it down to
    53 digits and rounds to the nearest, the even one at a half.  The
    lemmas below follow that computation for positive doubles with full
    mantissas, which is what integers below [2 ^ 53] are. *)









Lemma loc_of_shr_record_of_loc (m : Z) (l : location) :
  loc_of_shr_record (shr_record_of_loc m l) = l.
Proof. by destruct l as [|[]]. Qed.









(** *** Doubles as real numbers *)












(** Beyond [2 ^ 44] correct answers the two roundings can move the
    percentage across a half that is not exact: 46613728945471 out of
    66118764461661 is less than 70.5 and is shown as 71. *)
Lemma large_counts_round_differently :
  UserPanel.percentage
    (UserPanel.getScoreCard
       (mkAttemptResult "ann" 46613728945471 66118764461661 70))
  = JS.Integer 71
  ∧ round_half_up (100 * 46613728945471) 66118764461661 = 70
  ∧ half_percent 46613728945471 66118764461661 = false
  ∧ 2 ^ 44 < 46613728945471 < 2 ^ 46.
Proof. vm_compute. repeat split; congruence. Qed.



(** ** The attempt page *)

(** The call made by the interval: the guard and the quiz it reads are
    those of the first render, so it always passes the guard, fails on the
    quiz, alerts, and leaves [submitting] false.  Nothing is sent. *)
Lemma handleSubmit_by_interval (st : State) :
  handleSubmit ByInterval first_render st
  = setSubmitting false
      (emit (Alert TypeError_message)
         (setSubmitting true (emit (Called ByInterval) st))).
Proof. reflexivity. Qed.

Lemma requests_emit e st :
  requests (emit e st) = (requests st + if is_request e then 1 else 0)%nat.
Proof.
  unfold requests, emit. simpl. rewrite filter_app, length_app.
  by destruct e.
Qed.

Lemma expiries_emit e st :
  expiries (emit e st) = (expiries st + if is_expiry e then 1 else 0)%nat.
Proof.
  unfold expiries, emit. simpl. rewrite filter_app, length_app.
  by destruct e as [| | | |[]].
Qed.

(** A tick that finds a positive value takes one second off and does
    nothing else. *)
Lemma tick_positive (st : State) (prev : Z) :
  timeRemaining st = Some prev → 0 < prev →
  tick st = setTimeRemaining (prev - 1) st.
Proof.
  intros H Hp. unfold tick. rewrite H.
  by destruct (Z.ltb_spec 0 prev); [|lia].
Qed.

(** A tick that finds [null], zero or less calls [handleSubmit], clears
    the interval and returns 0. *)
Lemma tick_not_positive (st : State) :
  (∀ prev, timeRemaining st = Some prev → prev ≤ 0) →
  tick st
  = setTimeRemaining 0 (clearInterval (handleSubmit ByInterval first_render st)).
Proof.
  intros H. unfold tick. destruct (timeRemaining st) as [prev|]; [|done].
  specialize (H prev eq_refl). by destruct (Z.ltb_spec 0 prev); [lia|].
Qed.

Lemma commit_mounted (st : State) : mounted st = true → commit st = st.
Proof. unfold commit. by intros ->. Qed.

Lemma ticks_S (k : nat) (st : State) : ticks (S k) st = ticks k (step st Tick).
Proof. reflexivity. Qed.

Lemma ticks_succ (k : nat) (st : State) : ticks (S k) st = step (ticks k st) Tick.
Proof.
  unfold ticks, run. replace (S k) with (k + 1)%nat by lia.
  by rewrite replicate_add, foldl_app.
Qed.

(** While time remains, [k] ticks take [k] seconds off and do nothing
    else. *)
Lemma ticks_count_down (k : nat) : ∀ (st : State) (T : Z),
  mounted st = true → interval st = true → timeRemaining st = Some T →
  Z.of_nat k ≤ T →
  timeRemaining (ticks k st) = Some (T - Z.of_nat k)
  ∧ interval (ticks k st) = true
  ∧ mounted (ticks k st) = true
  ∧ trace (ticks k st) = trace st.
Proof.
  induction k as [|k IH]; intros st T Hm Hi Ht Hk.
  - change (ticks 0 st) with st. rewrite Ht. repeat split; try done.
    f_equal. lia.
  - rewrite ticks_S.
    assert (step st Tick = setTimeRemaining (T - 1) st) as ->.
    { unfold step. simpl. rewrite Hi, (tick_positive st T) by (done || lia).
      by apply commit_mounted. }
    destruct (IH (setTimeRemaining (T - 1) st) (T - 1)) as (H1 & H2 & H3 & H4);
      try done; [lia|].
    rewrite H1, H2, H3, H4. repeat split; try done. f_equal. lia.
Qed.

(** The tick that finds nothing left: one call of [handleSubmit], the
    interval cleared, the value 0. *)
Lemma step_tick_expired (st : State) :
  mounted st = true → interval st = true →
  (∀ prev, timeRemaining st = Some prev → prev ≤ 0) →
  timeRemaining (step st Tick) = Some 0
  ∧ interval (step st Tick) = false
  ∧ submitting (step st Tick) = false
  ∧ trace (step st Tick)
    = trace st ++ [Called ByInterval; Alert TypeError_message].
Proof.
  intros Hm Hi Hp. unfold step. simpl. rewrite Hi, tick_not_positive by done.
  rewrite handleSubmit_by_interval, commit_mounted by done.
  simpl. by rewrite <- app_assoc.
Qed.

(** No handler sets an interval: once cleared it stays cleared, and the
    timer calls [handleSubmit] no more. *)
Lemma handle_interval_cleared (st : State) (ev : Event) :
  interval st = false →
  interval (handle ev st) = false ∧ expiries (handle ev st) = expiries st.
Proof.
  intros Hi. unfold handle, handleSubmit, handleSubmit_resume.
  rewrite Hi. unfold expiries.
  repeat case_match; simpl;
    rewrite ?filter_app, ?length_app; simpl; auto with lia.
Qed.

Lemma step_interval_cleared (st : State) (ev : Event) :
  interval st = false →
  interval (step st ev) = false ∧ expiries (step st ev) = expiries st.
Proof.
  intros Hi. destruct (handle_interval_cleared st ev Hi) as [H1 H2].
  unfold step, commit. by destruct (mounted _).
Qed.

Lemma run_interval_cleared (evs : list Event) : ∀ st : State,
  interval st = false →
  interval (run evs st) = false ∧ expiries (run evs st) = expiries st.
Proof.
  induction evs as [|ev evs IH]; intros st Hi; [done|].
  destruct (step_interval_cleared st ev Hi) as [H1 H2].
  change (run (ev :: evs) st) with (run evs (step st ev)).
  destruct (IH _ H1) as [H3 H4]. split; congruence.
Qed.

Lemma ticks_interval_cleared (k : nat) : ∀ st : State,
  interval st = false → timeRemaining (ticks k st) = timeRemaining st.
Proof.
  induction k as [|k IH]; intros st Hi; [done|].
  rewrite ticks_S. destruct (step_interval_cleared st Tick Hi) as [H1 _].
  rewrite IH by done. unfold step. simpl. rewrite Hi.
  unfold commit. by destruct (mounted st).
Qed.

(** A tick sends nothing: the call it may make is the one of the first
    render. *)
Lemma step_tick_requests (st : State) : requests (step st Tick) = requests st.
Proof.
  assert (∀ s, requests (commit s) = requests s) as Hc.
  { intros s. unfold commit. by destruct (mounted s). }
  unfold step. rewrite Hc. simpl. destruct (interval st); [|done].
  unfold tick.
  destruct (timeRemaining st) as [prev|]; [destruct (0 <? prev); [done|]|];
    rewrite handleSubmit_by_interval; unfold requests; simpl;
    rewrite <- app_assoc, filter_app, length_app; simpl; lia.
Qed.

Lemma ticks_requests (k : nat) : ∀ st : State,
  requests (ticks k st) = requests st.
Proof.
  induction k as [|k IH]; intros st; [done|].
  by rewrite ticks_S, IH, step_tick_requests.
Qed.

Lemma ticks_add (a b : nat) (st : State) :
  ticks (a + b) st = ticks b (ticks a st).
Proof. unfold ticks, run. by rewrite replicate_add, foldl_app. Qed.

(** C2, as stated, fails: the tick that takes the clock from 1 to 0 does
    not call [handleSubmit].  Started at 60, the clock shows 0 after 60
    ticks and nothing has fired; the call comes with tick 61. *)
Lemma C2_no_expiry_after_T_ticks :
  timeRemaining started = Some 60
  ∧ timeRemaining (ticks 60 started) = Some 0
  ∧ expiries (ticks 60 started) = 0%nat
  ∧ interval (ticks 60 started) = true
  ∧ expiries (ticks 61 started) = 1%nat.
Proof. vm_compute. done. Qed.

(** C2, amended.  Started at [T ≥ 1] seconds, each of the first [T] ticks
    takes exactly one second off, the value never goes below 0, and the
    timer calls [handleSubmit] exactly once: on tick [T + 1], the first
    that finds 0, which also clears the interval, so that the value stays
    0 and no later tick calls it again. *)
Theorem C2_countdown (st : State) (T : Z) :
  1 ≤ T → mounted st = true → interval st = true →
  timeRemaining st = Some T →
  (∀ k : nat, Z.of_nat k ≤ T →
     timeRemaining (ticks k st) = Some (T - Z.of_nat k)
     ∧ expiries (ticks k st) = expiries st
     ∧ interval (ticks k st) = true)
  ∧ (∀ k : nat, T < Z.of_nat k →
     timeRemaining (ticks k st) = Some 0
     ∧ expiries (ticks k st) = S (expiries st)
     ∧ interval (ticks k st) = false)
  ∧ (∀ k : nat, ∃ r, timeRemaining (ticks k st) = Some r ∧ 0 ≤ r).
Proof.
  intros HT Hm Hi Ht.
  assert (∀ k : nat, Z.of_nat k ≤ T →
     timeRemaining (ticks k st) = Some (T - Z.of_nat k)
     ∧ expiries (ticks k st) = expiries st
     ∧ interval (ticks k st) = true) as Hdown.
  { intros k Hk.
    destruct (ticks_count_down k st T Hm Hi Ht Hk) as (H1 & H2 & _ & H4).
    unfold expiries. by rewrite H4. }
  assert (∀ k : nat, T < Z.of_nat k →
     timeRemaining (ticks k st) = Some 0
     ∧ expiries (ticks k st) = S (expiries st)
     ∧ interval (ticks k st) = false) as Hup.
  { intros k Hk.
    replace k with (Z.to_nat T + (1 + (k - Z.to_nat T - 1)))%nat by lia.
    rewrite ticks_add, ticks_add.
    destruct (ticks_count_down (Z.to_nat T) st T Hm Hi Ht ltac:(lia))
      as (H1 & H2 & H3 & H4).
    set (s := ticks (Z.to_nat T) st) in *.
    change (ticks 1 s) with (step s Tick).
    destruct (step_tick_expired s H3 H2) as (E1 & E2 & _ & E4).
    { intros prev. rewrite H1. intros [= <-]. lia. }
    destruct (run_interval_cleared (replicate (k - Z.to_nat T - 1) Tick) _ E2)
      as [R1 R2].
    fold (ticks (k - Z.to_nat T - 1) (step s Tick)) in R1, R2.
    rewrite ticks_interval_cleared, R1, R2, E1 by done.
    repeat split. unfold expiries. rewrite E4, H4, filter_app, length_app.
    simpl. lia. }
  split_and!; [done|done|].
  intros k. destruct (Z.le_gt_cases (Z.of_nat k) T) as [Hk|Hk].
  - destruct (Hdown k Hk) as [H _]. eexists. split; [exact H | lia].
  - destruct (Hup k Hk) as [H _]. eexists. split; [exact H | lia].
Qed.

(** The countdown of [started], from 60. *)
Lemma C2_countdown_from_60 :
  (∀ k : nat, Z.of_nat k ≤ 60 →
     timeRemaining (ticks k started) = Some (60 - Z.of_nat k)
     ∧ expiries (ticks k started) = expiries started
     ∧ interval (ticks k started) = true)
  ∧ (∀ k : nat, 60 < Z.of_nat k →
     timeRemaining (ticks k started) = Some 0
     ∧ expiries (ticks k started) = S (expiries started)
     ∧ interval (ticks k started) = false)
  ∧ (∀ k : nat, ∃ r, timeRemaining (ticks k started) = Some r ∧ 0 ≤ r).
Proof.
  apply (C2_countdown started 60); [lia | reflexivity | reflexivity | reflexivity].
Defined.

(** C10.  A tick that finds no positive value, [null] included, calls
    [handleSubmit], clears the interval and sets the value to 0.  The call
    is the one of the first render: it finds no quiz, and alerts the
    error.  So it is when the quiz has not arrived by the first tick. *)
Theorem C10_tick_without_time (st : State) :
  mounted st = true → interval st = true →
  (∀ prev, timeRemaining st = Some prev → prev ≤ 0) →
  expiries (step st Tick) = S (expiries st)
  ∧ interval (step st Tick) = false
  ∧ timeRemaining (step st Tick) = Some 0
  ∧ quiz (step st Tick) = quiz st
  ∧ trace (step st Tick)
    = trace st ++ [Called ByInterval; Alert TypeError_message].
Proof.
  intros Hm Hi Hp.
  destruct (step_tick_expired st Hm Hi Hp) as (E1 & E2 & _ & E4).
  split_and!; try done.
  - unfold expiries. rewrite E4, filter_app, length_app. simpl. lia.
  - unfold step. simpl. rewrite Hi, tick_not_positive by done.
    by rewrite commit_mounted.
Qed.

(** The first tick of an attempt whose quiz has not arrived. *)
Lemma C10_first_tick_before_the_quiz :
  (quiz (mount true) = None ∧ timeRemaining (mount true) = None)
  ∧ expiries (step (mount true) Tick) = S (expiries (mount true))
  ∧ interval (step (mount true) Tick) = false
  ∧ timeRemaining (step (mount true) Tick) = Some 0
  ∧ quiz (step (mount true) Tick) = quiz (mount true)
  ∧ trace (step (mount true) Tick)
    = trace (mount true) ++ [Called ByInterval; Alert TypeError_message].
Proof.
  split; [split; reflexivity|].
  apply (C10_tick_without_time (mount true)); [reflexivity | reflexivity |].
  intros prev H. discriminate H.
Defined.

(** *** Leaving the attempt *)

Lemma step_submit_interval (st : State) :
  mounted st = true → interval (step st ClickSubmit) = interval st.
Proof.
  intros Hm. unfold step.
  assert (mounted (handle ClickSubmit st) = true
          ∧ interval (handle ClickSubmit st) = interval st) as [H1 H2].
  { unfold handle, handleSubmit, mounted in *.
    repeat case_match; simpl; auto. }
  by rewrite commit_mounted.
Qed.

Lemma step_response_ok (st : State) (result : AttemptResult) :
  pending st ≠ 0%nat →
  interval (step st (SubmitResponse (ResOk result))) = false
  ∧ currentPage (step st (SubmitResponse (ResOk result))) = "user-panel"
  ∧ quizResult (step st (SubmitResponse (ResOk result))) = Some result.
Proof.
  intros Hp. unfold step. simpl. destruct (pending st); [done|]. done.
Qed.

(** C3, as stated, fails: a click on Submit leaves the interval running.
    With the request in flight and the clock at 0, the next tick calls
    [handleSubmit] again. *)
Lemma C3_timer_runs_during_submission :
  interval (run [ClickSubmit] out_of_time) = true
  ∧ pending (run [ClickSubmit] out_of_time) = 1%nat
  ∧ expiries (run [ClickSubmit] out_of_time) = 0%nat
  ∧ expiries (run [ClickSubmit; Tick] out_of_time) = 1%nat.
Proof. vm_compute. done. Qed.

(** C3, amended.  The interval is cleared by the tick that finds no time
    left, and by the unmount that follows a successful submission; once
    cleared it stays cleared and the timer calls [handleSubmit] no more,
    whatever happens next.  A click on Submit does not clear it: ticks go
    on while the request is in flight. *)
Theorem C3_timer_stopped
    (st : State) (evs : list Event) (result : AttemptResult) :
  mounted st = true → interval st = true →
  ((∀ prev, timeRemaining st = Some prev → prev ≤ 0) →
   interval (step st Tick) = false
   ∧ interval (run evs (step st Tick)) = false
   ∧ expiries (run evs (step st Tick)) = expiries (step st Tick))
  ∧ interval (step st ClickSubmit) = true
  ∧ (pending (step st ClickSubmit) ≠ 0%nat →
     currentPage (run [ClickSubmit; SubmitResponse (ResOk result)] st)
     = "user-panel"
     ∧ interval (run [ClickSubmit; SubmitResponse (ResOk result)] st) = false
     ∧ interval (run evs (run [ClickSubmit; SubmitResponse (ResOk result)] st))
       = false
     ∧ expiries (run evs (run [ClickSubmit; SubmitResponse (ResOk result)] st))
       = expiries (run [ClickSubmit; SubmitResponse (ResOk result)] st)).
Proof.
  intros Hm Hi. split_and!.
  - intros Hp. destruct (step_tick_expired st Hm Hi Hp) as (_ & E & _).
    by destruct (run_interval_cleared evs _ E).
  - by rewrite step_submit_interval.
  - intros Hp.
    change (run [ClickSubmit; SubmitResponse (ResOk result)] st)
      with (step (step st ClickSubmit) (SubmitResponse (ResOk result))).
    destruct (step_response_ok _ result Hp) as (H1 & H2 & _).
    by destruct (run_interval_cleared evs _ H1).
Qed.

(** The attempt of [out_of_time]: the tick that stops the timer, the click
    that does not, and the response that does. *)
Lemma C3_timer_stopped_example :
  ((∀ prev, timeRemaining out_of_time = Some prev → prev ≤ 0) →
   interval (step out_of_time Tick) = false
   ∧ interval (run [Tick; ClickSubmit; Tick] (step out_of_time Tick)) = false
   ∧ expiries (run [Tick; ClickSubmit; Tick] (step out_of_time Tick))
     = expiries (step out_of_time Tick))
  ∧ interval (step out_of_time ClickSubmit) = true
  ∧ (pending (step out_of_time ClickSubmit) ≠ 0%nat →
     currentPage
       (run [ClickSubmit; SubmitResponse (ResOk (mkAttemptResult "ann" 1 2 50))]
          out_of_time)
     = "user-panel"
     ∧ interval
         (run [ClickSubmit; SubmitResponse (ResOk (mkAttemptResult "ann" 1 2 50))]
            out_of_time) = false
     ∧ interval
         (run [Tick; ClickSubmit; Tick]
            (run [ClickSubmit; SubmitResponse (ResOk (mkAttemptResult "ann" 1 2 50))]
               out_of_time)) = false
     ∧ expiries
         (run [Tick; ClickSubmit; Tick]
            (run [ClickSubmit; SubmitResponse (ResOk (mkAttemptResult "ann" 1 2 50))]
               out_of_time))
       = expiries
           (run [ClickSubmit; SubmitResponse (ResOk (mkAttemptResult "ann" 1 2 50))]
              out_of_time)).
Proof.
  apply (C3_timer_stopped out_of_time [Tick; ClickSubmit; Tick]
           (mkAttemptResult "ann" 1 2 50)).
  - vm_compute. reflexivity.
  - vm_compute. reflexivity.
Defined.

(** *** The guard of [handleSubmit] *)

(** C1.  The guard reads the [submitting] of the render that declared the
    handler, and the interval keeps the handler of the first render, where
    it is false.  So the timer's call is never ignored: it sets and resets
    [submitting] and alerts, and sends nothing.  With a request of the
    button in flight and the clock at 0, the tick leaves [submitting]
    false, the button is enabled again, and a second click sends a second
    request.  When the timer comes first, its call sends nothing and the
    click that follows is the one that is sent; no number of ticks ever
    sends the answers. *)
Theorem C1_guard_misses_the_timer :
  (∀ st : State,
     submitting (handleSubmit ByInterval first_render st) = false
     ∧ requests (handleSubmit ByInterval first_render st) = requests st
     ∧ trace (handleSubmit ByInterval first_render st)
       = trace st ++ [Called ByInterval; Alert TypeError_message])
  ∧ (∀ (st : State) (k : nat), requests (ticks k st) = requests st)
  ∧ (submitting (run [ClickSubmit] out_of_time) = true
     ∧ requests (run [ClickSubmit] out_of_time) = 1%nat)
  ∧ (submitting (run [ClickSubmit; Tick] out_of_time) = false
     ∧ pending (run [ClickSubmit; Tick] out_of_time) = 1%nat
     ∧ requests (run [ClickSubmit; Tick] out_of_time) = 1%nat)
  ∧ requests (run [ClickSubmit; Tick; ClickSubmit] out_of_time) = 2%nat
  ∧ (requests (run [Tick] out_of_time) = 0%nat
     ∧ expiries (run [Tick] out_of_time) = 1%nat
     ∧ requests (run [Tick; ClickSubmit] out_of_time) = 1%nat).
Proof.
  split; [|split].
  - intros st. rewrite handleSubmit_by_interval. split_and!; [done| |].
    + unfold requests. simpl. rewrite <- app_assoc, filter_app, length_app.
      simpl. lia.
    + simpl. by rewrite <- app_assoc.
  - intros st k. apply ticks_requests.
  - vm_compute. done.
Qed.

(** *** A failed submission *)

(** C4, as stated, fails: after the failure [submitting] is false again. *)
Lemma C4_guard_reset_after_failure :
  submitting (run [ClickSubmit] last_question) = true
  ∧ submitting (run [ClickSubmit; SubmitResponse ResNotOk] last_question) = false
  ∧ submitting
      (run [ClickSubmit; SubmitResponse (ResRejected "Failed to fetch")]
         last_question) = false.
Proof. vm_compute. done. Qed.

(** C4, amended.  When a submission fails, by a response that is not ok or
    by a rejected request, the error's message is alerted and [submitting]
    is set back to false: the page stays as it was, with the Submit button
    enabled again, and neither the failure nor any number of ticks after
    it sends a new request. *)
Theorem C4_failed_submission
    (st : State) (n : nat) (res : Response) (message : string) :
  mounted st = true → pending st = S n →
  (res = ResNotOk ∧ message = "Failed to submit quiz")
  ∨ res = ResRejected message →
  trace (step st (SubmitResponse res)) = trace st ++ [Alert message]
  ∧ submitting (step st (SubmitResponse res)) = false
  ∧ requests (step st (SubmitResponse res)) = requests st
  ∧ pending (step st (SubmitResponse res)) = n
  ∧ currentPage (step st (SubmitResponse res)) = currentPage st
  ∧ interval (step st (SubmitResponse res)) = interval st
  ∧ quiz (step st (SubmitResponse res)) = quiz st
  ∧ answers (step st (SubmitResponse res)) = answers st
  ∧ currentQuestionIndex (step st (SubmitResponse res))
    = currentQuestionIndex st
  ∧ (∀ k : nat, requests (ticks k (step st (SubmitResponse res))) = requests st).
Proof.
  intros Hm Hp Hres.
  assert (requests (step st (SubmitResponse res)) = requests st) as Hreq.
  { unfold step. simpl. rewrite Hp.
    assert (∀ s, requests (commit s) = requests s) as Hc.
    { intros s. unfold commit. by destruct (mounted s). }
    rewrite Hc. unfold requests.
    destruct Hres as [[-> ->] | ->]; simpl;
      rewrite filter_app, length_app; simpl; lia. }
  assert (step st (SubmitResponse res)
          = setSubmitting false (emit (Alert message) (set_pending n st))) as Hs.
  { unfold step. simpl. rewrite Hp.
    assert (handleSubmit_resume res (set_pending n st)
            = setSubmitting false (emit (Alert message) (set_pending n st))) as ->.
    { by destruct Hres as [[-> ->] | ->]. }
    by apply commit_mounted. }
  split_and!; [..| intros k; by rewrite ticks_requests]; try done;
    by rewrite Hs.
Qed.

(** A response that is not ok to the request of [last_question]. *)
Lemma C4_failed_submission_example :
  trace (step (run [ClickSubmit] last_question) (SubmitResponse ResNotOk))
  = trace (run [ClickSubmit] last_question) ++ [Alert "Failed to submit quiz"]
  ∧ submitting (step (run [ClickSubmit] last_question) (SubmitResponse ResNotOk))
    = false
  ∧ requests (step (run [ClickSubmit] last_question) (SubmitResponse ResNotOk))
    = requests (run [ClickSubmit] last_question)
  ∧ pending (step (run [ClickSubmit] last_question) (SubmitResponse ResNotOk))
    = 0%nat
  ∧ currentPage (step (run [ClickSubmit] last_question) (SubmitResponse ResNotOk))
    = currentPage (run [ClickSubmit] last_question)
  ∧ interval (step (run [ClickSubmit] last_question) (SubmitResponse ResNotOk))
    = interval (run [ClickSubmit] last_question)
  ∧ quiz (step (run [ClickSubmit] last_question) (SubmitResponse ResNotOk))
    = quiz (run [ClickSubmit] last_question)
  ∧ answers (step (run [ClickSubmit] last_question) (SubmitResponse ResNotOk))
    = answers (run [ClickSubmit] last_question)
  ∧ currentQuestionIndex
      (step (run [ClickSubmit] last_question) (SubmitResponse ResNotOk))
    = currentQuestionIndex (run [ClickSubmit] last_question)
  ∧ (∀ k : nat,
       requests
         (ticks k (step (run [ClickSubmit] last_question) (SubmitResponse ResNotOk)))
       = requests (run [ClickSubmit] last_question)).
Proof.
  apply (C4_failed_submission (run [ClickSubmit] last_question) 0 ResNotOk
           "Failed to submit quiz").
  - vm_compute. reflexivity.
  - vm_compute. reflexivity.
  - left. split; reflexivity.
Defined.

(** *** Loading *)

(** Such an attempt stays so, on the page it is on, without navigating. *)
Lemma step_stuck (st : State) (ev : Event) :
  stuck st →
  stuck (step st ev)
  ∧ currentPage (step st ev) = currentPage st
  ∧ filter is_navigation (trace (step st ev)) = filter is_navigation (trace st).
Proof.
  intros (Hq & Hl & Hp).
  assert (stuck (handle ev st)
          ∧ currentPage (handle ev st) = currentPage st
          ∧ filter is_navigation (trace (handle ev st))
            = filter is_navigation (trace st)) as (H1 & H2 & H3).
  { unfold stuck, handle. rewrite Hq, Hl, Hp.
    destruct ev; try done.
    destruct (interval st); [|done]. unfold tick.
    destruct (timeRemaining st) as [prev|]; [destruct (0 <? prev); [done|]|];
      rewrite handleSubmit_by_interval; simpl;
      rewrite <- app_assoc, filter_app, app_nil_r; done. }
  unfold step, commit, stuck in *. by destruct (mounted _).
Qed.

Lemma run_stuck (evs : list Event) : ∀ st : State,
  stuck st →
  stuck (run evs st)
  ∧ currentPage (run evs st) = currentPage st
  ∧ filter is_navigation (trace (run evs st)) = filter is_navigation (trace st).
Proof.
  induction evs as [|ev evs IH]; intros st Hs; [done|].
  change (run (ev :: evs) st) with (run evs (step st ev)).
  destruct (step_stuck st ev Hs) as (H1 & H2 & H3).
  destruct (IH _ H1) as (H4 & H5 & H6). split_and!; [done | congruence..].
Qed.

(** C7.  Without the attempt context the page navigates to the quiz list
    at once, and no quiz is ever loaded.  When the fetch of the quiz fails
    no quiz is loaded either, but nothing navigates: whatever happens
    next, the attempt page stays on screen. *)
Theorem C7_load_failures (evs : list Event) :
  (currentPage (mount false) = "quiz"
   ∧ trace (mount false) = [NavigateTo "quiz"]
   ∧ interval (mount false) = false)
  ∧ quiz (run evs (mount false)) = None
  ∧ quiz (run (QuizLoadFailed :: evs) (mount true)) = None
  ∧ currentPage (run (QuizLoadFailed :: evs) (mount true)) = "quiz-attempt"
  ∧ filter is_navigation (trace (run (QuizLoadFailed :: evs) (mount true))) = [].
Proof.
  split; [done|].
  destruct (run_stuck evs (mount false)) as ((H1 & _) & _); [done|].
  change (run (QuizLoadFailed :: evs) (mount true))
    with (run evs (step (mount true) QuizLoadFailed)).
  destruct (run_stuck evs (step (mount true) QuizLoadFailed))
    as ((H2 & _) & H3 & H4); [done|].
  split_and!; [done | done | by rewrite H3 | by rewrite H4].
Qed.

(** *** Navigation *)

(** Only the arrival of the quiz and the two navigation buttons touch the
    quiz or the index. *)
Lemma handle_keeps_question (st : State) (ev : Event) :
  match ev with
  | QuizLoaded _ | QuizLoadFailed | ClickPrevious | ClickNext => True
  | _ =>
      quiz (handle ev st) = quiz st
      ∧ currentQuestionIndex (handle ev st) = currentQuestionIndex st
      ∧ loading (handle ev st) = loading st
  end.
Proof.
  destruct ev; try done;
    unfold handle, handleSubmit, handleSubmit_resume, tick;
    repeat case_match; done.
Qed.

Lemma step_navigable (st : State) (ev : Event) :
  loads_questions ev = true → navigable st → navigable (step st ev).
Proof.
  intros Hev [Hr Hl].
  assert (navigable (handle ev st)) as [H1 H2].
  { pose proof (handle_keeps_question st ev) as Hk.
    unfold navigable, in_range in *.
    destruct ev; try (destruct Hk as (-> & -> & ->); done); simpl in *.
    - destruct (loading st) eqn:E; [|by rewrite E]. simpl.
      rewrite Hl in Hr by done. split; [lia | done].
    - destruct (loading st) eqn:E; by rewrite ?E.
    - destruct (quiz st) eqn:Eq; [|by rewrite Eq].
      destruct (mounted st && negb (currentQuestionIndex st =? 0)) eqn:E;
        [|by rewrite Eq]. simpl. rewrite Eq.
      apply andb_true_iff in E as [_ E]. apply negb_true_iff in E.
      apply Z.eqb_neq in E. split; [lia | done].
    - destruct (quiz st) as [q|] eqn:Eq; [|by rewrite Eq].
      destruct (mounted st && negb (currentQuestionIndex st + 1 =? total q)) eqn:E;
        [|by rewrite Eq]. simpl. rewrite Eq.
      apply andb_true_iff in E as [_ E]. apply negb_true_iff in E.
      apply Z.eqb_neq in E. split; [lia | done]. }
  unfold step, commit, navigable, in_range in *. by destruct (mounted _).
Qed.

Lemma run_navigable (evs : list Event) : ∀ st : State,
  forallb loads_questions evs = true → navigable st → navigable (run evs st).
Proof.
  induction evs as [|ev evs IH]; intros st Hevs Hn; [done|].
  simpl in Hevs. apply andb_true_iff in Hevs as [Hev Hevs].
  change (run (ev :: evs) st) with (run evs (step st ev)).
  apply IH; [done|]. by apply step_navigable.
Qed.

(** C8.  Whatever happens to an attempt whose quiz has a question, the
    index is one of its questions.  At index 0 the Previous button is
    disabled, and at the last index the Next button is not there (the
    Submit button is): the index stays. *)
Theorem C8_navigation_in_range
    (context : bool) (evs : list Event) (st : State) (q : Quiz) :
  forallb loads_questions evs = true →
  quiz st = Some q →
  in_range (run evs (mount context))
  ∧ (currentQuestionIndex st = 0 →
     currentQuestionIndex (step st ClickPrevious) = 0)
  ∧ (currentQuestionIndex st = total q - 1 →
     currentQuestionIndex (step st ClickNext) = total q - 1).
Proof.
  intros Hevs Hq.
  assert (∀ s, currentQuestionIndex (commit s) = currentQuestionIndex s) as Hc.
  { intros s. unfold commit. by destruct (mounted s). }
  split_and!.
  - apply run_navigable; [done|]. by destruct context.
  - intros H0. unfold step. rewrite Hc. simpl. rewrite Hq, H0. simpl.
    by rewrite andb_false_r.
  - intros HN. unfold step. rewrite Hc. simpl. rewrite Hq, HN.
    replace (total q - 1 + 1 =? total q) with true
      by (symmetry; apply Z.eqb_eq; lia).
    simpl. by rewrite andb_false_r.
Qed.

(** Back and forth over the two questions of [sample_quiz], and the two
    buttons on the only question of [single_question]. *)
Lemma C8_navigation_example :
  in_range
    (run [QuizLoaded sample_quiz; ClickPrevious; ClickNext; ClickNext;
          ClickNext; ClickPrevious; ClickPrevious; ClickPrevious]
       (mount true))
  ∧ (currentQuestionIndex single_question = 0 →
     currentQuestionIndex (step single_question ClickPrevious) = 0)
  ∧ (currentQuestionIndex single_question
     = total (mkQuiz "Solo" 1 [mkQuestion 1 "Only?"]) - 1 →
     currentQuestionIndex (step single_question ClickNext)
     = total (mkQuiz "Solo" 1 [mkQuestion 1 "Only?"]) - 1).
Proof.
  apply (C8_navigation_in_range true
           [QuizLoaded sample_quiz; ClickPrevious; ClickNext; ClickNext;
            ClickNext; ClickPrevious; ClickPrevious; ClickPrevious]
           single_question (mkQuiz "Solo" 1 [mkQuestion 1 "Only?"])).
  - reflexivity.
  - vm_compute. reflexivity.
Defined.

(** * Further properties of the attempt page *)

(** ** Navigation *)

Lemma step_next (st : State) (q : Quiz) :
  mounted st = true → quiz st = Some q →
  step st ClickNext
  = if currentQuestionIndex st + 1 =? total q then st
    else setCurrentQuestionIndex (fun i => i + 1) st.
Proof.
  intros Hm Hq. unfold step. simpl. rewrite Hq, Hm. simpl.
  destruct (_ =? _); simpl; by apply commit_mounted.
Qed.

Lemma step_previous (st : State) (q : Quiz) :
  mounted st = true → quiz st = Some q →
  step st ClickPrevious
  = if currentQuestionIndex st =? 0 then st
    else setCurrentQuestionIndex (fun i => i - 1) st.
Proof.
  intros Hm Hq. unfold step. simpl. rewrite Hq, Hm. simpl.
  destruct (_ =? _); simpl; by apply commit_mounted.
Qed.

Lemma run_replicate_S (k : nat) (ev : Event) (st : State) :
  run (replicate (S k) ev) st = run (replicate k ev) (step st ev).
Proof. reflexivity. Qed.

(** X1.  Pressing Next [k] times moves [k] questions on and stops at the
    last one; pressing Previous [k] times moves [k] questions back and stops
    at the first. *)
Theorem X1_navigation_steps (st : State) (q : Quiz) (k : nat) :
  mounted st = true → quiz st = Some q →
  0 ≤ currentQuestionIndex st < total q →
  currentQuestionIndex (run (replicate k ClickNext) st)
  = Z.min (currentQuestionIndex st + Z.of_nat k) (total q - 1)
  ∧ currentQuestionIndex (run (replicate k ClickPrevious) st)
    = Z.max (currentQuestionIndex st - Z.of_nat k) 0.
Proof.
  intros Hm Hq Hr. split.
  - revert st Hm Hq Hr. induction k as [|k IH]; intros st Hm Hq Hr.
    + simpl. lia.
    + rewrite run_replicate_S, (step_next st q) by done.
      destruct (Z.eqb_spec (currentQuestionIndex st + 1) (total q)).
      * rewrite IH by done. lia.
      * rewrite IH; simpl; try done; lia.
  - revert st Hm Hq Hr. induction k as [|k IH]; intros st Hm Hq Hr.
    + simpl. lia.
    + rewrite run_replicate_S, (step_previous st q) by done.
      destruct (Z.eqb_spec (currentQuestionIndex st) 0).
      * rewrite IH by done. lia.
      * rewrite IH; simpl; try done; lia.
Qed.

(** From the first question of [sample_quiz]: three presses of Next reach
    the last question, index 1; from there three of Previous reach 0. *)
Lemma X1_navigation_steps_example :
  currentQuestionIndex (run (replicate 3 ClickNext) started) = 1
  ∧ currentQuestionIndex (run (replicate 3 ClickPrevious) started) = 0.
Proof.
  assert (0 ≤ currentQuestionIndex started < total sample_quiz) as Hr.
  { vm_compute. split; [discriminate | reflexivity]. }
  exact (X1_navigation_steps started sample_quiz 3 eq_refl eq_refl Hr).
Defined.

(** ** Requests *)

Lemma requests_commit (st : State) : requests (commit st) = requests st.
Proof. unfold commit. by destruct (mounted st). Qed.

Lemma trace_commit (st : State) : trace (commit st) = trace st.
Proof. unfold commit. by destruct (mounted st). Qed.

(** X2.  A request leaves only on a click on the Submit button, shown on the
    last question and enabled, that is with [submitting] false.  The flag
    does not say that no request is in flight (C1): the request sent joins
    those pending.  It carries the time used so far and one entry for each
    question answered, with the answer stored for it; the order of the
    entries is left open.  No other event sends anything. *)
Theorem X2_only_the_button_sends (st : State) (ev : Event) :
  requests (step st ev) = requests st
  ∨ (ev = ClickSubmit ∧ mounted st = true ∧ submitting st = false
     ∧ ∃ q body,
         quiz st = Some q
         ∧ currentQuestionIndex st + 1 = total q
         ∧ trace (step st ev) = trace st ++ [Called ByButton; FetchSubmit body]
         ∧ requests (step st ev) = S (requests st)
         ∧ pending (step st ev) = S (pending st)
         ∧ timeTakenSeconds body = elapsedSeconds q (timeRemaining st)
         ∧ NoDup (questionId <$> body_answers body)
         ∧ ∀ e, e ∈ body_answers body
                ↔ answers st !! questionId e
                  = Some (mkAnswer (selectedOptionId e) (textAnswer e))).
Proof.
  destruct ev as [qd| | |qi o t| | | |res].
  - left. unfold step. rewrite requests_commit. simpl. by destruct (loading st).
  - left. unfold step. rewrite requests_commit. simpl. by destruct (loading st).
  - left. apply step_tick_requests.
  - left. unfold step. rewrite requests_commit. simpl.
    by destruct (quiz st), (mounted st).
  - left. unfold step. rewrite requests_commit. simpl.
    destruct (quiz st); [|done]. by destruct (_ && _).
  - left. unfold step. rewrite requests_commit. simpl.
    destruct (quiz st); [|done]. by destruct (_ && _).
  - unfold step. rewrite requests_commit, trace_commit. simpl.
    destruct (quiz st) as [q|] eqn:Hq; [|by left].
    destruct (mounted st) eqn:Hm; [|by left]. simpl.
    destruct (Z.eqb_spec (currentQuestionIndex st + 1) (total q)) as [Hi|];
      [|by left]. simpl.
    destruct (submitting st) eqn:Hs; [by left|]. simpl. right.
    split_and!; try done.
    exists q, (mkSubmitBody (AnswerStore.submissionAnswers (answers st))
                 (elapsedSeconds q (timeRemaining st))).
    unfold handleSubmit, render. simpl. rewrite Hs, Hq. simpl.
    assert (mounted
              (set_pending (S (pending st))
                 (emit
                    (FetchSubmit
                       (mkSubmitBody
                          (AnswerStore.submissionAnswers (answers st))
                          (elapsedSeconds q (timeRemaining st))))
                    (setSubmitting true (emit (Called ByButton) st))))
            = true) as Hm' by exact Hm.
    unfold commit. rewrite Hm'. simpl.
    split_and!; try done.
    + by rewrite <- app_assoc.
    + unfold requests. simpl. rewrite !filter_app, !length_app. simpl. lia.
    + rewrite submissionAnswers_ids. apply NoDup_fst_map_to_list.
    + apply elem_of_submissionAnswers.
  - left. unfold step. rewrite requests_commit. simpl.
    destruct (pending st); [done|]. unfold requests.
    destruct res; simpl; rewrite ?filter_app, ?length_app; simpl; lia.
Qed.

(** ** The time reported *)

(** Unfold the state updates of a handler, then project. *)
Ltac state_simpl :=
  cbv [setQuiz setCurrentQuestionIndex setAnswers setTimeRemaining
       setSubmitting clearInterval set_loading set_pending set_quizResult
       emit navigateTo];
  simpl.

Lemma reported_within_mono (a b : Z) (e : Effect) :
  a ≤ b → reported_within a e → reported_within b e.
Proof. intros Hab. destruct e; simpl; lia || done. Qed.

Lemma handle_on_time (st : State) (ev : Event) :
  loads_time ev = true → on_time st → on_time (handle ev st).
Proof.
  intros Hev (Hl & Ht & Hf). unfold on_time, seconds_allowed in *.
  destruct ev as [qd| | |qi o t| | | |res]; simpl in *.
  - destruct (loading st) eqn:El; [|by rewrite El]. simpl.
    apply Z.leb_le in Hev. rewrite Hl in Hf by done.
    split_and!; [done| |].
    + intros q [= <-]. split; [done|]. eexists. split; [done|]. lia.
    + eapply Forall_impl; [exact Hf|]. intros e. apply reported_within_mono. lia.
  - destruct (loading st) eqn:El; by rewrite ?El.
  - destruct (interval st); [|done]. unfold tick.
    destruct (timeRemaining st) as [prev|] eqn:Et.
    + destruct (Z.ltb_spec 0 prev).
      * simpl. split_and!; [done| |done].
        intros q Hq. destruct (Ht q Hq) as (H0 & t & [= <-] & Hr).
        split; [done|]. eexists. split; [done|]. lia.
      * rewrite handleSubmit_by_interval. simpl. split_and!; [done| |].
        -- intros q Hq. destruct (Ht q Hq) as (H0 & _).
           split; [done|]. eexists. split; [done|]. lia.
        -- rewrite <- app_assoc. apply Forall_app. split; [done|].
           by repeat constructor.
    + rewrite handleSubmit_by_interval. simpl. split_and!; [done| |].
      * intros q Hq. destruct (Ht q Hq) as (H0 & _).
        split; [done|]. eexists. split; [done|]. lia.
      * rewrite <- app_assoc. apply Forall_app. split; [done|].
        by repeat constructor.
  - destruct (quiz st) eqn:Eq; [|by rewrite Eq].
    destruct (mounted st); simpl; by rewrite Eq.
  - destruct (quiz st) eqn:Eq; [|by rewrite Eq].
    destruct (_ && _); simpl; by rewrite Eq.
  - destruct (quiz st) eqn:Eq; [|by rewrite Eq].
    destruct (_ && _); simpl; by rewrite Eq.
  - destruct (quiz st) as [q|] eqn:Eq; [|by rewrite Eq].
    destruct (_ && _); [|by rewrite Eq].
    unfold handleSubmit, render. simpl.
    destruct (submitting st); state_simpl; rewrite Eq.
    + split_and!; [done..|]. apply Forall_app. split; [done|]. by repeat constructor.
    + split_and!; [done..|]. rewrite <- app_assoc. apply Forall_app.
      split; [done|]. constructor; [done|]. constructor; [|done]. simpl.
      destruct (Ht q eq_refl) as (H0 & t & -> & Hr).
      unfold elapsedSeconds. simpl. lia.
  - destruct (pending st); [done|].
    destruct res; simpl; (split_and!; [done..|]);
      apply Forall_app; (split; [done|]); by repeat constructor.
Qed.

Lemma step_on_time (st : State) (ev : Event) :
  loads_time ev = true → on_time st → on_time (step st ev).
Proof.
  intros Hev Hs. pose proof (handle_on_time st ev Hev Hs) as H.
  unfold step, commit, on_time, seconds_allowed in *. by destruct (mounted _).
Qed.

Lemma run_on_time (evs : list Event) : ∀ st : State,
  forallb loads_time evs = true → on_time st → on_time (run evs st).
Proof.
  induction evs as [|ev evs IH]; intros st Hevs Hs; [done|].
  simpl in Hevs. apply andb_true_iff in Hevs as [Hev Hevs].
  change (run (ev :: evs) st) with (run evs (step st ev)).
  apply IH; [done|]. by apply step_on_time.
Qed.

(** X3.  Whatever happens to an attempt whose quiz has a time limit that is
    not negative, the time remaining is never negative and never more than
    the time allowed, and every request sent reports a time between 0 and
    the time allowed. *)
Theorem X3_time_within_the_limit (context : bool) (evs : list Event) :
  forallb loads_time evs = true →
  Forall (reported_within (seconds_allowed (run evs (mount context))))
    (trace (run evs (mount context)))
  ∧ (∀ q, quiz (run evs (mount context)) = Some q →
       ∃ t, timeRemaining (run evs (mount context)) = Some t
            ∧ 0 ≤ t ≤ timeLimitMinutes q * 60).
Proof.
  intros Hevs.
  destruct (run_on_time evs (mount context) Hevs) as (_ & Ht & Hf).
  { destruct context; (split_and!; [done..|]); by repeat constructor. }
  split; [done|]. intros q Hq. by destruct (Ht q Hq).
Qed.

(** An attempt at [sample_quiz] submitted after two ticks: the request
    reports 2 seconds of the 60 allowed. *)
Lemma X3_time_within_the_limit_example :
  Forall
    (reported_within
       (seconds_allowed
          (run [QuizLoaded sample_quiz; Tick; Tick; ClickNext; ClickSubmit]
             (mount true))))
    (trace
       (run [QuizLoaded sample_quiz; Tick; Tick; ClickNext; ClickSubmit]
          (mount true)))
  ∧ (∀ q,
       quiz
         (run [QuizLoaded sample_quiz; Tick; Tick; ClickNext; ClickSubmit]
            (mount true)) = Some q →
       ∃ t,
         timeRemaining
           (run [QuizLoaded sample_quiz; Tick; Tick; ClickNext; ClickSubmit]
              (mount true)) = Some t
         ∧ 0 ≤ t ≤ timeLimitMinutes q * 60).
Proof.
  apply (X3_time_within_the_limit true
           [QuizLoaded sample_quiz; Tick; Tick; ClickNext; ClickSubmit]).
  reflexivity.
Defined.

(** ** After the page has gone *)






(** ** A quiz that arrives after the first tick *)

(** X5.  When the first tick comes before the quiz, it clears the interval;
    the quiz that arrives then sets the clock to its full time, where it
    stays: no tick takes a second off, and the timer never calls
    [handleSubmit] again, whatever happens. *)
Theorem X5_late_quiz_stops_the_clock
    (quizData : Quiz) (evs : list Event) (k : nat) :
  quiz (run [Tick; QuizLoaded quizData] (mount true)) = Some quizData
  ∧ timeRemaining (ticks k (run [Tick; QuizLoaded quizData] (mount true)))
    = Some (timeLimitMinutes quizData * 60)
  ∧ interval (run evs (run [Tick; QuizLoaded quizData] (mount true))) = false
  ∧ expiries (run evs (run [Tick; QuizLoaded quizData] (mount true))) = 1%nat.
Proof.
  set (s := run [Tick; QuizLoaded quizData] (mount true)).
  assert (interval s = false) as Hi by reflexivity.
  destruct (run_interval_cleared evs s Hi) as [H1 H2].
  split_and!; [reflexivity | by rewrite ticks_interval_cleared | done |].
  rewrite H2. reflexivity.
Qed.

(** ** The answers of a run *)

Lemma handle_answers (st : State) (ev : Event) (q : Quiz) :
  mounted st = true → quiz st = Some q → leaves_page ev = false →
  mounted (handle ev st) = true
  ∧ is_Some (quiz (handle ev st))
  ∧ answers (handle ev st)
    = match ev with
      | SelectAnswer qi o t => AnswerStore.handleAnswerSelect qi o t (answers st)
      | _ => answers st
      end.
Proof.
  intros Hm Hq Hev. unfold mounted in *.
  destruct ev as [qd| | |qi o t| | | |res]; simpl.
  - destruct (loading st); simpl; rewrite ?Hq; eauto.
  - destruct (loading st); simpl; rewrite ?Hq; eauto.
  - destruct (interval st); [|rewrite Hq; eauto]. unfold tick.
    destruct (timeRemaining st) as [prev|]; [destruct (0 <? prev)|];
      rewrite ?handleSubmit_by_interval; simpl; rewrite Hq; eauto.
  - rewrite Hq. unfold mounted. rewrite Hm. simpl. rewrite Hq. eauto.
  - rewrite Hq. destruct (_ && _); simpl; rewrite Hq; eauto.
  - rewrite Hq. destruct (_ && _); simpl; rewrite Hq; eauto.
  - rewrite Hq. destruct (_ && _); [|rewrite Hq; eauto].
    unfold handleSubmit, render. simpl.
    destruct (submitting st); state_simpl; rewrite Hq; eauto.
  - destruct (pending st); [rewrite Hq; eauto|].
    destruct res; [done|..]; simpl; rewrite Hq; eauto.
Qed.

Lemma run_answers (evs : list Event) : ∀ (st : State) (q : Quiz),
  mounted st = true → quiz st = Some q →
  forallb (fun ev => negb (leaves_page ev)) evs = true →
  answers (run evs st)
  = foldl (fun m '(qi, o, t) => AnswerStore.handleAnswerSelect qi o t m)
      (answers st) (calls_of evs).
Proof.
  induction evs as [|ev evs IH]; intros st q Hm Hq Hevs; [done|].
  simpl in Hevs. apply andb_true_iff in Hevs as [Hev Hevs].
  apply negb_true_iff in Hev.
  destruct (handle_answers st ev q Hm Hq Hev) as (H1 & [q' H2] & H3).
  change (run (ev :: evs) st) with (run evs (step st ev)).
  assert (step st ev = handle ev st) as ->.
  { unfold step. by apply commit_mounted. }
  rewrite (IH _ q') by done. rewrite H3.
  by destruct ev as [| | |qi o t| | | |].
Qed.

(** X6.  While the attempt page is on screen with its quiz, the answers it
    holds are those of the selections made, the last one for each question:
    the other events change none of them. *)
Theorem X6_answers_are_the_selections
    (st : State) (q : Quiz) (evs : list Event) (questionId : Z) :
  mounted st = true → quiz st = Some q → answers st = ∅ →
  forallb (fun ev => negb (leaves_page ev)) evs = true →
  answers (run evs st) = AnswerStore.selections (calls_of evs)
  ∧ answers (run evs st) !! questionId
    = AnswerStore.last_call questionId (calls_of evs).
Proof.
  intros Hm Hq Ha Hevs.
  assert (answers (run evs st) = AnswerStore.selections (calls_of evs)) as H.
  { rewrite (run_answers evs st q) by done. by rewrite Ha. }
  split; [done|]. rewrite H. apply selections_lookup.
Qed.

(** Two selections for question 7 among clicks and ticks on [started]:
    the second is the one kept. *)
Lemma X6_answers_are_the_selections_example :
  answers
    (run [SelectAnswer 7 (Some 3) None; Tick; ClickNext;
          SelectAnswer 9 None (Some "Nile"); ClickPrevious;
          SelectAnswer 7 (Some 4) None] started)
  = AnswerStore.selections
      [(7, Some 3, None); (9, None, Some "Nile"); (7, Some 4, None)]
  ∧ answers
      (run [SelectAnswer 7 (Some 3) None; Tick; ClickNext;
            SelectAnswer 9 None (Some "Nile"); ClickPrevious;
            SelectAnswer 7 (Some 4) None] started) !! 7
    = Some (mkAnswer (Some 4) None).
Proof.
  exact (X6_answers_are_the_selections started sample_quiz
           [SelectAnswer 7 (Some 3) None; Tick; ClickNext;
            SelectAnswer 9 None (Some "Nile"); ClickPrevious;
            SelectAnswer 7 (Some 4) None] 7 eq_refl eq_refl eq_refl eq_refl).
Defined.

(** * Times on screen *)

Lemma string_length_app (s1 s2 : string) :
  String.length (s1 +:+ s2) = (String.length s1 + String.length s2)%nat.
Proof. induction s1 as [|c s1 IH]; simpl; [done|]. by rewrite IH. Qed.

(** Two concatenations that agree, with tails of one length, agree part
    by part. *)
Lemma string_app_inj_tail (s1 s2 t1 t2 : string) :
  s1 +:+ t1 = s2 +:+ t2 → String.length t1 = String.length t2 →
  s1 = s2 ∧ t1 = t2.
Proof.
  revert s2. induction s1 as [|c s1 IH]; intros [|c' s2] H Hl.
  - done.
  - change (t1 = String c' (s2 +:+ t2)) in H. subst t1. simpl in Hl.
    rewrite string_length_app in Hl. lia.
  - change (String c (s1 +:+ t1) = t2) in H. subst t2. simpl in Hl.
    rewrite string_length_app in Hl. lia.
  - change (String c (s1 +:+ t1) = String c' (s2 +:+ t2)) in H.
    injection H as -> H. destruct (IH _ H Hl) as [-> ->]. done.
Qed.

Lemma pad_length (n : nat) (c : ascii) (s : string) :
  String.length (Clock.pad n c s) = (n + String.length s)%nat.
Proof. induction n as [|n IH]; simpl; [done|]. by rewrite IH. Qed.

(** The digits written in front of [s] never shorten it. *)
Lemma pretty_N_go_length (x : N) : ∀ s : string,
  (String.length s ≤ String.length (pretty_N_go x s))%nat.
Proof.
  induction (N.lt_wf_0 x) as [x _ IH]; intros s.
  destruct (decide (x = 0)%N) as [->|Hx]; [by rewrite pretty_N_go_0|].
  rewrite pretty_N_go_step by lia.
  etrans; [|apply IH; apply N.div_lt; lia]. simpl. lia.
Qed.

(** A positive number is written with a first digit that is not 0. *)
Lemma pretty_N_go_head (x : N) : ∀ s : string,
  (0 < x)%N →
  ∃ c rest, pretty_N_go x s = String c rest ∧ c ≠ "0"%char.
Proof.
  induction (N.lt_wf_0 x) as [x _ IH]; intros s Hx.
  rewrite pretty_N_go_step by done.
  destruct (decide (x < 10)%N) as [Hlt|Hge].
  - rewrite N.div_small, pretty_N_go_0 by done.
    rewrite N.mod_small by done. eexists _, _. split; [done|].
    assert (x = 1 ∨ x = 2 ∨ x = 3 ∨ x = 4 ∨ x = 5 ∨ x = 6
            ∨ x = 7 ∨ x = 8 ∨ x = 9)%N as Hc by lia.
    by destruct Hc as [->|[->|[->|[->|[->|[->|[->|[->| ->]]]]]]]].
  - apply IH; [apply N.div_lt; lia|]. apply N.div_str_pos. lia.
Qed.

Lemma pretty_Z_pos (z : Z) :
  0 < z → pretty z = pretty_N_go (Z.to_N z) "".
Proof. destruct z as [|p|p]; try lia. intros _. done. Qed.

Lemma pretty_Z_head (z : Z) (rest : string) :
  0 < z → pretty z ≠ String "0" rest.
Proof.
  intros Hz. rewrite pretty_Z_pos by done.
  destruct (pretty_N_go_head (Z.to_N z) "") as (c & r & -> & Hc); [lia|].
  congruence.
Qed.

Lemma pretty_Z_long (z : Z) : 10 ≤ z → (2 ≤ String.length (pretty z))%nat.
Proof.
  intros Hz. rewrite pretty_Z_pos by lia.
  assert (10 ≤ Z.to_N z)%N as Hn by lia.
  rewrite pretty_N_go_step by lia.
  rewrite pretty_N_go_step by (apply N.div_str_pos; lia).
  etrans; [|apply pretty_N_go_length]. simpl. lia.
Qed.

Lemma two_digits_below_100 : forallb two_digits (seq 0 100) = true.
Proof. vm_compute. reflexivity. Qed.

Lemma padStart_short (z : Z) :
  0 ≤ z < 100 →
  String.length (Clock.padStart 2 "0" (pretty z)) = 2%nat
  ∧ (z < 10 → Clock.padStart 2 "0" (pretty z) = String "0" (pretty z)).
Proof.
  intros Hz. pose proof two_digits_below_100 as H.
  rewrite forallb_forall in H. specialize (H (Z.to_nat z)).
  unfold two_digits in H. rewrite Z2Nat.id in H by lia.
  apply andb_true_iff in H as [H1 H2]; [|apply in_seq; lia].
  apply bool_decide_eq_true in H1. split; [done|]. intros Hz'.
  destruct (Nat.ltb_spec (Z.to_nat z) 10); [|lia].
  by apply bool_decide_eq_true in H2.
Qed.

Lemma padStart_long (z : Z) :
  10 ≤ z → Clock.padStart 2 "0" (pretty z) = pretty z.
Proof.
  intros Hz. pose proof (pretty_Z_long z Hz). unfold Clock.padStart.
  by replace (2 - String.length (pretty z))%nat with 0%nat by lia.
Qed.

Lemma padStart_min (z : Z) :
  0 ≤ z → (2 ≤ String.length (Clock.padStart 2 "0" (pretty z)))%nat.
Proof.
  intros Hz. unfold Clock.padStart. rewrite pad_length. lia.
Qed.

(** Padded to two characters, the numbers from 0 on are written
    differently. *)
Lemma padStart_pretty_inj (a b : Z) :
  0 ≤ a → 0 ≤ b →
  Clock.padStart 2 "0" (pretty a) = Clock.padStart 2 "0" (pretty b) → a = b.
Proof.
  intros Ha Hb H.
  destruct (decide (a < 10)) as [Ha'|Ha'], (decide (b < 10)) as [Hb'|Hb'].
  - destruct (padStart_short a) as [_ Hpa]; [lia|].
    destruct (padStart_short b) as [_ Hpb]; [lia|].
    rewrite Hpa, Hpb in H by lia.
    injection H as H. by apply (inj pretty).
  - destruct (padStart_short a) as [_ Hpa]; [lia|].
    rewrite Hpa, padStart_long in H by lia.
    symmetry in H. by apply pretty_Z_head in H; [|lia].
  - destruct (padStart_short b) as [_ Hpb]; [lia|].
    rewrite Hpb, padStart_long in H by lia.
    by apply pretty_Z_head in H; [|lia].
  - rewrite !padStart_long in H by lia. by apply (inj pretty).
Qed.

(** X7.  From no seconds on, the clock ends in a colon and two characters
    for the seconds and has two characters or more for the minutes; below
    100 minutes it has exactly five, the colon in the middle. *)
Theorem X7_clock_shape (seconds : Z) :
  0 ≤ seconds →
  (5 ≤ String.length (Clock.formatTime seconds))%nat
  ∧ String.get (String.length (Clock.formatTime seconds) - 3)
      (Clock.formatTime seconds) = Some ":"%char
  ∧ (seconds < 6000 → String.length (Clock.formatTime seconds) = 5%nat).
Proof.
  intros Hs. unfold Clock.formatTime. cbv zeta.
  rewrite Z.rem_mod_nonneg by lia.
  set (P := Clock.padStart 2 "0" (pretty (seconds `div` 60))).
  set (Q := Clock.padStart 2 "0" (pretty (seconds `mod` 60))).
  assert (String.length Q = 2%nat) as HQ.
  { apply padStart_short. pose proof (Z.mod_pos_bound seconds 60). lia. }
  assert (2 ≤ String.length P)%nat as HP.
  { apply padStart_min. apply Z.div_pos; lia. }
  rewrite !string_length_app, HQ. simpl. split_and!.
  - lia.
  - replace (String.length P + 3 - 3)%nat with (0 + String.length P)%nat by lia.
    by rewrite <- String.append_correct2.
  - intros Hlt. assert (String.length P = 2%nat) as ->; [|done].
    apply padStart_short. split; [apply Z.div_pos; lia|].
    apply Z.div_lt_upper_bound; lia.
Qed.

(** 59 minutes 59 seconds, and one second. *)
Lemma X7_clock_shape_example :
  ((5 ≤ String.length (Clock.formatTime 3599))%nat
   ∧ String.get (String.length (Clock.formatTime 3599) - 3)
       (Clock.formatTime 3599) = Some ":"%char
   ∧ (3599 < 6000 → String.length (Clock.formatTime 3599) = 5%nat))
  ∧ Clock.formatTime 3599 = "59:59"
  ∧ Clock.formatTime 1 = "00:01".
Proof.
  split; [|split; reflexivity].
  apply (X7_clock_shape 3599). lia.
Defined.

(** X8.  Two different times, from no seconds on, are shown differently, on
    the attempt page and on the leaderboard alike; and the leaderboard shows
    a missing time as it shows no seconds. *)
Theorem X8_clock_injective (s1 s2 : Z) :
  0 ≤ s1 → 0 ≤ s2 →
  (Clock.formatTime s1 = Clock.formatTime s2 → s1 = s2)
  ∧ (Clock.formatTimeMMSS (Some s1) = Clock.formatTimeMMSS (Some s2) → s1 = s2)
  ∧ Clock.formatTimeMMSS None = Clock.formatTimeMMSS (Some 0).
Proof.
  intros H1 H2.
  assert (Clock.formatTime s1 = Clock.formatTime s2 → s1 = s2) as Hinj.
  { unfold Clock.formatTime. cbv zeta. rewrite !Z.rem_mod_nonneg by lia.
    pose proof (Z.mod_pos_bound s1 60) as Hb1.
    pose proof (Z.mod_pos_bound s2 60) as Hb2.
    destruct (padStart_short (s1 `mod` 60)) as [HQ1 _]; [lia|].
    destruct (padStart_short (s2 `mod` 60)) as [HQ2 _]; [lia|].
    intros H. apply string_app_inj_tail in H as [HP H].
    - change (String ":" (Clock.padStart 2 "0" (pretty (s1 `mod` 60)))
              = String ":" (Clock.padStart 2 "0" (pretty (s2 `mod` 60)))) in H.
      injection H as HQ.
      apply padStart_pretty_inj in HP; [|apply Z.div_pos; lia..].
      apply padStart_pretty_inj in HQ; [|lia..].
      rewrite (Z.div_mod s1 60), (Z.div_mod s2 60) by lia. lia.
    - rewrite !string_length_app. by rewrite HQ1, HQ2. }
  split_and!; [done | exact Hinj | reflexivity].
Qed.

(** 61 seconds and 62 seconds. *)
Lemma X8_clock_injective_example :
  (Clock.formatTime 61 = Clock.formatTime 62 → 61 = 62)
  ∧ (Clock.formatTimeMMSS (Some 61) = Clock.formatTimeMMSS (Some 62) → 61 = 62)
  ∧ Clock.formatTimeMMSS None = Clock.formatTimeMMSS (Some 0).
Proof. apply (X8_clock_injective 61 62); lia. Defined.

(** * Requests to the service *)

(** X9.  With a token, the request carries it as the [Authorization] header
    whatever the caller's headers say; without one, that header is the
    caller's.  [Content-Type] is the caller's when given and
    [application/json] otherwise, so it is always there; every other header
    is the caller's; method and body are passed on. *)
Theorem X9_request_headers
    (options : Api.Options) (token : option string) (key : string) :
  Api.req_headers (Api.request options token) !! "Authorization"
  = (if Api.truthy token then Some ("Bearer " +:+ default "" token)
     else default ∅ (Api.headers options) !! "Authorization")
  ∧ Api.req_headers (Api.request options token) !! "Content-Type"
    = Some (default "application/json"
              (default ∅ (Api.headers options) !! "Content-Type"))
  ∧ (key ≠ "Authorization" → key ≠ "Content-Type" →
     Api.req_headers (Api.request options token) !! key
     = default ∅ (Api.headers options) !! key)
  ∧ Api.req_method (Api.request options token) = Api.method options
  ∧ Api.req_body (Api.request options token) = Api.body options.
Proof.
  unfold Api.request, Api.request_headers. simpl.
  set (h := default ∅ (Api.headers options)). split_and!; [| | |done..].
  - destruct (Api.truthy token).
    + rewrite lookup_union_l'; [by rewrite lookup_singleton_eq|].
      by rewrite lookup_singleton_eq.
    + rewrite (left_id ∅ (∪)). rewrite lookup_union.
      by rewrite lookup_singleton_ne, (right_id None union).
  - assert ((h ∪ {["Content-Type" := "application/json"]}) !! "Content-Type"
            = Some (default "application/json" (h !! "Content-Type"))) as Hc.
    { rewrite lookup_union, lookup_singleton_eq. by destruct (h !! _). }
    destruct (Api.truthy token).
    + rewrite lookup_union_r; [done|]. by rewrite lookup_singleton_ne.
    + by rewrite (left_id ∅ (∪)).
  - intros Ha Hc.
    assert ((h ∪ {["Content-Type" := "application/json"]}) !! key = h !! key) as Hk.
    { rewrite lookup_union, lookup_singleton_ne by done.
      by rewrite (right_id None union). }
    destruct (Api.truthy token).
    + rewrite lookup_union_r; [done|]. by rewrite lookup_singleton_ne.
    + by rewrite (left_id ∅ (∪)).
Qed.

(** X10.  A response that is not ok always ends in an error whose message is
    not empty: the body's text, or [HTTP] and the status when there is no
    text.  A response that is ok never does: a body that does not parse
    gives the empty object. *)
Theorem X10_settle {A : Type} (res : Api.Response A) :
  match Api.settle res with
  | Api.Throws message =>
      Api.ok res = false ∧ message ≠ ""
      ∧ (message = default "" (Api.text res)
         ∨ (default "" (Api.text res) = ""
            ∧ message = "HTTP " +:+ pretty (Api.status res)))
  | Api.Returns value => Api.ok res = true ∧ Api.json res = Some value
  | Api.ReturnsEmptyObject => Api.ok res = true ∧ Api.json res = None
  end.
Proof.
  unfold Api.settle. destruct (Api.ok res).
  - by destruct (Api.json res).
  - destruct (String.eqb_spec (default "" (Api.text res)) "") as [He|Hne].
    + split_and!; [done|done|]. right. done.
    + split_and!; [done|done|]. by left.
Qed.

(** * The pages *)

(** X11.  Whatever page is asked for and whoever asks, one render settles
    it: the admin panel is on screen only for a user of role [ADMIN], the
    user panel only for one of role [USER], the login form only when nobody
    is logged in; a page that is refused, or unknown, gives the home page. *)
Theorem X11_pages_by_role (st : App.State) :
  App.render (App.render st) = App.render st
  ∧ match App.on_screen st with
    | App.AdminPanel =>
        App.currentPage st = "admin-panel"
        ∧ App.has_role (App.currentUser st) "ADMIN" = true
    | App.UserPanel =>
        App.currentPage st = "user-panel"
        ∧ App.has_role (App.currentUser st) "USER" = true
    | App.LoginPage =>
        App.currentPage st = "login" ∧ App.currentUser st = None
    | App.NavigateTo _ => False
    | App.HomePage =>
        App.currentPage st = "home"
        ∨ App.renderPage (App.currentPage st) (App.currentUser st)
          = App.NavigateTo "home"
        ∨ (App.currentPage st ≠ "about" ∧ App.currentPage st ≠ "login"
           ∧ App.currentPage st ≠ "admin-panel"
           ∧ App.currentPage st ≠ "user-panel"
           ∧ App.currentPage st ≠ "quiz"
           ∧ App.currentPage st ≠ "quiz-attempt")
    | App.AboutPage => App.currentPage st = "about"
    | App.QuizList => App.currentPage st = "quiz"
    | App.QuizAttempt => App.currentPage st = "quiz-attempt"
    end.
Proof.
  destruct st as [page user]. unfold App.on_screen, App.render. simpl.
  destruct (decide (page = "home")) as [->|Hhome]; [by split; [|left]|].
  destruct (decide (page = "about")) as [->|Habout]; [done|].
  destruct (decide (page = "login")) as [->|Hlogin].
  { destruct user; [split; [done|]; right; by left | done]. }
  destruct (decide (page = "admin-panel")) as [->|Hadmin].
  { destruct user as [u|]; simpl.
    - change (App.renderPage "admin-panel" (Some u))
        with (if bool_decide (App.role u = "ADMIN")
              then App.AdminPanel else App.NavigateTo "home").
      destruct (bool_decide (App.role u = "ADMIN")) eqn:E; simpl.
      + change (App.renderPage "admin-panel" (Some u))
          with (if bool_decide (App.role u = "ADMIN")
                then App.AdminPanel else App.NavigateTo "home").
        by rewrite E.
      + split; [done|]. right. by left.
    - split; [done|]. right. by left. }
  destruct (decide (page = "user-panel")) as [->|Huser].
  { destruct user as [u|]; simpl.
    - change (App.renderPage "user-panel" (Some u))
        with (if bool_decide (App.role u = "USER")
              then App.UserPanel else App.NavigateTo "home").
      destruct (bool_decide (App.role u = "USER")) eqn:E; simpl.
      + change (App.renderPage "user-panel" (Some u))
          with (if bool_decide (App.role u = "USER")
                then App.UserPanel else App.NavigateTo "home").
        by rewrite E.
      + split; [done|]. right. by left.
    - split; [done|]. right. by left. }
  destruct (decide (page = "quiz")) as [->|Hquiz]; [done|].
  destruct (decide (page = "quiz-attempt")) as [->|Hattempt]; [done|].
  assert (App.renderPage page user = App.HomePage) as Hr.
  { unfold App.renderPage. by repeat (rewrite decide_False by done). }
  rewrite Hr. simpl. rewrite Hr. split; [done|]. right. right. done.
Qed.

(** X12.  After a login an [ADMIN] is on the admin panel, a [USER] on the
    user panel, and a user of any other role on the home page; after a
    logout the home page is on screen and nobody is logged in. *)
Theorem X12_login_lands_by_role (user : App.User) (st : App.State) :
  App.on_screen (App.handleLogin user st)
  = (if bool_decide (App.role user = "ADMIN") then App.AdminPanel
     else if bool_decide (App.role user = "USER") then App.UserPanel
     else App.HomePage)
  ∧ App.currentUser (App.handleLogin user st) = Some user
  ∧ App.on_screen (App.handleLogout (App.handleLogin user st)) = App.HomePage
  ∧ App.currentUser (App.handleLogout (App.handleLogin user st)) = None.
Proof.
  unfold App.on_screen, App.render, App.handleLogin, App.handleLogout,
    App.navigateTo, App.renderPage. simpl.
  split_and!; [|done..].
  destruct (bool_decide (App.role user = "ADMIN")) eqn:Ea; simpl.
  - by rewrite Ea.
  - by destruct (bool_decide (App.role user = "USER")) eqn:Eu; simpl; rewrite ?Eu.
Qed.

(** * The quiz form *)

(** [findIndex] gives the first place where the test holds. *)
Lemma findIndex_spec {A} (f : A → bool) (l : list A) :
  (existsb f l = false ∧ QuizForm.findIndex f l = -1)
  ∨ (existsb f l = true
     ∧ ∃ (i : nat) x,
         QuizForm.findIndex f l = Z.of_nat i ∧ l !! i = Some x ∧ f x = true
         ∧ ∀ (j : nat) y, (j < i)%nat → l !! j = Some y → f y = false).
Proof.
  induction l as [|x l IH]; simpl; [by left|].
  destruct (f x) eqn:Ex; simpl.
  - right. split; [done|]. exists 0%nat, x. split_and!; [done..|]. lia.
  - destruct IH as [[Hn ->]|[Hy (i & y & -> & Hi & Hf & Hmin)]].
    + by left.
    + right. split; [done|]. exists (S i), y.
      destruct (Z.eqb_spec (Z.of_nat i) (-1)); [lia|].
      split_and!; [lia|done|done|].
      intros [|j] z Hj; simpl; [by intros [= <-]|]. apply Hmin. lia.
Qed.

Lemma existsb_Exists {A} (f : A → bool) (l : list A) :
  existsb f l = true ↔ Exists (fun x => f x = true) l.
Proof.
  rewrite existsb_exists, Exists_exists. split; intros (x & Hx & Hf); exists x.
  - split; [by apply list_elem_of_In|done].
  - split; [by apply list_elem_of_In|done].
Qed.

(** The loop of [handleQuizSave] complains exactly when some question
    is not acceptable. *)
Lemma first_complaint_None (qs : list QuizForm.QuestionForm) :
  QuizForm.first_complaint qs = None ↔ Forall ok_question qs.
Proof.
  induction qs as [|q qs IH]; simpl; [by split|].
  rewrite Forall_cons. unfold ok_question at 1.
  destruct (Text.blank (QuizForm.questionText q));
    [split; [done | by intros [[? _] _]]|].
  destruct (bool_decide (QuizForm.type q = "TEXT")) eqn:Et; simpl.
  - destruct (Text.blank (QuizForm.correctText q)).
    + split; [done | by intros [[_ ?] _]].
    + rewrite IH. tauto.
  - destruct (Nat.ltb_spec (length (QuizForm.options q)) 2).
    { split; [done | intros [(_ & ? & _) _]; lia]. }
    destruct (existsb QuizForm.isCorrect (QuizForm.options q)) eqn:Ee; simpl.
    + apply existsb_Exists in Ee. rewrite IH. tauto.
    + split; [done|]. intros [(_ & _ & He) _].
      apply existsb_Exists in He. congruence.
Qed.

Lemma payload_question_well_formed (q : QuizForm.QuestionForm) :
  ok_question q → well_formed (QuizForm.payload_question q).
Proof.
  unfold ok_question, well_formed, QuizForm.payload_question.
  intros [Hb Hq]. destruct (bool_decide (QuizForm.type q = "TEXT")) eqn:Et; simpl.
  - apply bool_decide_eq_true in Et. split; [done|]. left. eauto 10.
  - apply bool_decide_eq_false in Et. destruct Hq as [Hl He].
    split; [done|]. right. rewrite length_fmap. split_and!; [done..|].
    apply existsb_Exists in He.
    destruct (findIndex_spec QuizForm.isCorrect (QuizForm.options q))
      as [[Hn _]|[_ (i & x & Hi & Hx & _)]]; [congruence|].
    eexists. split; [done|]. rewrite Hi. apply lookup_lt_Some in Hx. lia.
Qed.

(** X13.  [handleQuizSave] sends exactly the forms that have a title, a
    question, and only acceptable questions, and alerts for every other.
    What it sends is the form's payload, every question of which is well
    formed, to the form's own quiz when it has an id and as a new quiz when
    it has none. *)
Theorem X13_save_sends_well_formed (form : QuizForm.Form) :
  match QuizForm.handleQuizSave form with
  | QuizForm.Alerts _ => ¬ savable form
  | QuizForm.Puts id p =>
      savable form ∧ QuizForm.form_id form = Some id ∧ id ≠ 0
      ∧ p = QuizForm.payload form
      ∧ Forall well_formed (QuizForm.p_questions p)
  | QuizForm.Posts p =>
      savable form
      ∧ (QuizForm.form_id form = None ∨ QuizForm.form_id form = Some 0)
      ∧ p = QuizForm.payload form
      ∧ Forall well_formed (QuizForm.p_questions p)
  end.
Proof.
  unfold QuizForm.handleQuizSave, savable.
  destruct (Text.blank (QuizForm.title form)); simpl; [by intros [? _]|].
  destruct (QuizForm.questions form) as [|q qs] eqn:Eq; simpl;
    [by intros (_ & ? & _)|].
  change (match (if Text.blank (QuizForm.questionText q) then _ else _)
          with Some m => _ | None => _ end)
    with (match QuizForm.first_complaint (q :: qs)
          with
          | Some message => QuizForm.Alerts message
          | None =>
              match QuizForm.form_id form with
              | Some id =>
                  if id =? 0 then QuizForm.Posts (QuizForm.payload form)
                  else QuizForm.Puts id (QuizForm.payload form)
              | None => QuizForm.Posts (QuizForm.payload form)
              end
          end).
  destruct (QuizForm.first_complaint (q :: qs)) as [m|] eqn:Ec.
  - intros (_ & _ & Hf). apply first_complaint_None in Hf. congruence.
  - apply first_complaint_None in Ec.
    assert (Forall well_formed
              (QuizForm.p_questions (QuizForm.payload form))) as Hw.
    { unfold QuizForm.payload. simpl. rewrite Eq. apply Forall_fmap.
      eapply Forall_impl; [exact Ec|]. apply payload_question_well_formed. }
    destruct (QuizForm.form_id form) as [id|]; [|split_and!; auto].
    destruct (Z.eqb_spec id 0) as [->|]; split_and!; auto.
Qed.

Lemma set_questions_alter (f : QuizForm.QuestionForm → QuizForm.QuestionForm)
    (i j : nat) (form : QuizForm.Form) :
  QuizForm.questions (QuizForm.set_questions (alter f i) form) !! j
  = if decide (i = j) then f <$> QuizForm.questions form !! j
    else QuizForm.questions form !! j.
Proof.
  simpl. case_decide as Hij.
  - subst. apply list_lookup_alter_eq.
  - by apply list_lookup_alter_ne.
Qed.

(** X14.  Marking option [oi] correct: that option, and no other, is marked
    afterwards, so [oi] is the index that a save sends; the options keep
    their number and their texts, and the other questions are as they were. *)
Theorem X14_one_correct_option
    (form : QuizForm.Form) (i oi : nat) (q : QuizForm.QuestionForm) :
  QuizForm.questions form !! i = Some q →
  QuizForm.has_options q = true →
  (oi < length (QuizForm.options q))%nat →
  ∃ q',
    QuizForm.questions (QuizForm.edit (QuizForm.SelectCorrect i oi) form) !! i
    = Some q'
    ∧ (∀ (idx : nat) o, QuizForm.options q' !! idx = Some o →
         QuizForm.isCorrect o = bool_decide (idx = oi))
    ∧ QuizForm.findIndex QuizForm.isCorrect (QuizForm.options q') = Z.of_nat oi
    ∧ length (QuizForm.options q') = length (QuizForm.options q)
    ∧ QuizForm.optionText <$> QuizForm.options q'
      = QuizForm.optionText <$> QuizForm.options q
    ∧ (∀ j : nat, j ≠ i →
         QuizForm.questions (QuizForm.edit (QuizForm.SelectCorrect i oi) form) !! j
         = QuizForm.questions form !! j).
Proof.
  intros Hq Ho Hoi. unfold QuizForm.edit.
  exists (QuizForm.set_options
            (imap (fun idx oo =>
                     QuizForm.mkOption (QuizForm.option_id oo)
                       (QuizForm.optionText oo) (bool_decide (idx = oi)))) q).
  rewrite set_questions_alter, decide_True, Hq by done. simpl.
  rewrite Ho. rewrite bool_decide_eq_true_2 by done. simpl.
  assert (∀ (idx : nat) o,
            imap (fun idx oo =>
                    QuizForm.mkOption (QuizForm.option_id oo)
                      (QuizForm.optionText oo) (bool_decide (idx = oi)))
              (QuizForm.options q) !! idx = Some o →
            QuizForm.isCorrect o = bool_decide (idx = oi)) as Hflags.
  { intros idx o. rewrite list_lookup_imap.
    destruct (QuizForm.options q !! idx); simpl; [|done]. by intros [= <-]. }
  split_and!; [done | exact Hflags | | apply length_imap | |].
  - destruct (findIndex_spec QuizForm.isCorrect
                (imap (fun idx oo =>
                         QuizForm.mkOption (QuizForm.option_id oo)
                           (QuizForm.optionText oo) (bool_decide (idx = oi)))
                   (QuizForm.options q)))
      as [[Hn _]|[_ (k & x & -> & Hx & Hf & _)]].
    + destruct (lookup_lt_is_Some_2 (QuizForm.options q) oi Hoi) as [o Hlook].
      assert (existsb QuizForm.isCorrect
                (imap (fun idx oo =>
                         QuizForm.mkOption (QuizForm.option_id oo)
                           (QuizForm.optionText oo) (bool_decide (idx = oi)))
                   (QuizForm.options q)) = true) as He; [|congruence].
      apply existsb_Exists, Exists_exists. eexists. split.
      * apply list_elem_of_lookup. exists oi.
        by rewrite list_lookup_imap, Hlook.
      * simpl. by apply bool_decide_eq_true_2.
    + apply Hflags in Hx. rewrite Hf in Hx. symmetry in Hx.
      apply bool_decide_eq_true in Hx. by subst.
  - rewrite fmap_imap. by rewrite <- (imap_const QuizForm.optionText).
  - intros j Hj. simpl. by apply list_lookup_alter_ne.
Qed.

(** A question with three options, the first marked: marking the third. *)
Lemma X14_one_correct_option_example :
  ∃ q',
    QuizForm.questions
      (QuizForm.edit (QuizForm.SelectCorrect 0 2)
         (QuizForm.mkForm None "Rivers" "" 30 true
            [QuizForm.mkQuestion None "Longest?" "MULTIPLE_CHOICE" 1
               [QuizForm.mkOption None "Nile" true;
                QuizForm.mkOption None "Rhine" false;
                QuizForm.mkOption None "Amazon" false] None ""])) !! 0%nat
    = Some q'
    ∧ (∀ (idx : nat) o, QuizForm.options q' !! idx = Some o →
         QuizForm.isCorrect o = bool_decide (idx = 2%nat))
    ∧ QuizForm.findIndex QuizForm.isCorrect (QuizForm.options q') = Z.of_nat 2
    ∧ length (QuizForm.options q') = 3%nat
    ∧ QuizForm.optionText <$> QuizForm.options q' = ["Nile"; "Rhine"; "Amazon"]
    ∧ (∀ j : nat, j ≠ 0%nat →
         QuizForm.questions
           (QuizForm.edit (QuizForm.SelectCorrect 0 2)
              (QuizForm.mkForm None "Rivers" "" 30 true
                 [QuizForm.mkQuestion None "Longest?" "MULTIPLE_CHOICE" 1
                    [QuizForm.mkOption None "Nile" true;
                     QuizForm.mkOption None "Rhine" false;
                     QuizForm.mkOption None "Amazon" false] None ""])) !! j
         = [QuizForm.mkQuestion None "Longest?" "MULTIPLE_CHOICE" 1
              [QuizForm.mkOption None "Nile" true;
               QuizForm.mkOption None "Rhine" false;
               QuizForm.mkOption None "Amazon" false] None ""] !! j).
Proof.
  apply (X14_one_correct_option
           (QuizForm.mkForm None "Rivers" "" 30 true
              [QuizForm.mkQuestion None "Longest?" "MULTIPLE_CHOICE" 1
                 [QuizForm.mkOption None "Nile" true;
                  QuizForm.mkOption None "Rhine" false;
                  QuizForm.mkOption None "Amazon" false] None ""])
           0 2
           (QuizForm.mkQuestion None "Longest?" "MULTIPLE_CHOICE" 1
              [QuizForm.mkOption None "Nile" true;
               QuizForm.mkOption None "Rhine" false;
               QuizForm.mkOption None "Amazon" false] None "")).
  - reflexivity.
  - reflexivity.
  - simpl. lia.
Defined.

(** The form that [startEditQuiz] makes has no option marked correct. *)
Lemma startEditQuiz_unmarked (qd : QuizForm.QuestionDto) :
  existsb QuizForm.isCorrect
    ((fun o =>
        QuizForm.mkOption (Some (QuizForm.dto_option_id o))
          (QuizForm.dto_optionText o) false) <$> QuizForm.dto_options qd)
  = false.
Proof. induction (QuizForm.dto_options qd) as [|o os IH]; simpl; done. Qed.

(** X15.  A quiz opened for editing comes without its correct options: when
    it has a question that is not a text question, [handleQuizSave] refuses
    it as it is, with an alert. *)
Theorem X15_edit_forgets_correct_options (dto : QuizForm.QuizDto) :
  existsb (fun qd => negb (bool_decide (QuizForm.dto_type qd = "TEXT")))
    (QuizForm.dto_questions dto) = true →
  Forall
    (fun q => Forall (fun o => QuizForm.isCorrect o = false) (QuizForm.options q))
    (QuizForm.questions (QuizForm.startEditQuiz dto))
  ∧ ∃ message,
      QuizForm.handleQuizSave (QuizForm.startEditQuiz dto)
      = QuizForm.Alerts message.
Proof.
  intros Hex. split.
  - unfold QuizForm.startEditQuiz. simpl. apply Forall_fmap, Forall_true.
    intros qd. simpl. apply Forall_fmap, Forall_true. done.
  - unfold QuizForm.handleQuizSave.
    destruct (Text.blank _ || _); [eauto|].
    assert (QuizForm.first_complaint
              (QuizForm.questions (QuizForm.startEditQuiz dto)) ≠ None) as Hc.
    { unfold QuizForm.startEditQuiz. simpl.
      induction (QuizForm.dto_questions dto) as [|qd qds IH]; [done|].
      simpl in *. destruct (Text.blank (QuizForm.dto_questionText qd)); [done|].
      destruct (bool_decide (QuizForm.dto_type qd = "TEXT")); simpl in *.
      - destruct (Text.blank _); [done|]. by apply IH.
      - destruct (_ <? _)%nat; [done|].
        by rewrite startEditQuiz_unmarked. }
    destruct (QuizForm.first_complaint _); [eauto|done].
Qed.

(** A quiz of one question with two options, the first correct, opened
    for editing. *)
Lemma X15_edit_forgets_correct_options_example :
  Forall
    (fun q => Forall (fun o => QuizForm.isCorrect o = false) (QuizForm.options q))
    (QuizForm.questions
       (QuizForm.startEditQuiz
          (QuizForm.mkQuizDto 5 "Rivers" "" 30 true
             [QuizForm.mkQuestionDto 7 "Longest?" "MULTIPLE_CHOICE" 1
                [QuizForm.mkOptionDto 1 "Nile" (Some true);
                 QuizForm.mkOptionDto 2 "Rhine" (Some false)] None])))
  ∧ ∃ message,
      QuizForm.handleQuizSave
        (QuizForm.startEditQuiz
           (QuizForm.mkQuizDto 5 "Rivers" "" 30 true
              [QuizForm.mkQuestionDto 7 "Longest?" "MULTIPLE_CHOICE" 1
                 [QuizForm.mkOptionDto 1 "Nile" (Some true);
                  QuizForm.mkOptionDto 2 "Rhine" (Some false)] None]))
      = QuizForm.Alerts message.
Proof.
  apply (X15_edit_forgets_correct_options
           (QuizForm.mkQuizDto 5 "Rivers" "" 30 true
              [QuizForm.mkQuestionDto 7 "Longest?" "MULTIPLE_CHOICE" 1
                 [QuizForm.mkOptionDto 1 "Nile" (Some true);
                  QuizForm.mkOptionDto 2 "Rhine" (Some false)] None])).
  reflexivity.
Defined.

Lemma findIndex_fmap {A B} (g : A → B) (f : B → bool) (l : list A) :
  QuizForm.findIndex f (g <$> l) = QuizForm.findIndex (fun x => f (g x)) l.
Proof. induction l as [|x l IH]; csimpl; [done|]. by rewrite IH. Qed.

(** X16.  A copy is a new quiz: it keeps no id, of the quiz, of a question
    or of an option, so saving it never overwrites the quiz it was copied
    from; it keeps the texts and the correct options as delivered, with the
    index of the first correct one; and a copy that is acceptable is posted
    as it is. *)
Theorem X16_copy_is_a_new_quiz (dto : QuizForm.QuizDto) :
  match QuizForm.handleQuizSave (QuizForm.handleCopyQuiz dto) with
  | QuizForm.Puts _ _ => False
  | _ => True
  end
  ∧ (savable (QuizForm.handleCopyQuiz dto) →
     QuizForm.handleQuizSave (QuizForm.handleCopyQuiz dto)
     = QuizForm.Posts (QuizForm.payload (QuizForm.handleCopyQuiz dto)))
  ∧ QuizForm.title (QuizForm.handleCopyQuiz dto)
    = "Copy of " +:+ QuizForm.dto_title dto
  ∧ Forall
      (fun q =>
         QuizForm.question_id q = None
         ∧ Forall (fun o => QuizForm.option_id o = None) (QuizForm.options q)
         ∧ QuizForm.correctOptionIndex q
           = Some (QuizForm.findIndex QuizForm.isCorrect (QuizForm.options q)))
      (QuizForm.questions (QuizForm.handleCopyQuiz dto))
  ∧ (fun q =>
       (fun o => (QuizForm.optionText o, QuizForm.isCorrect o))
         <$> QuizForm.options q)
      <$> QuizForm.questions (QuizForm.handleCopyQuiz dto)
    = (fun qd =>
         (fun o => (QuizForm.dto_optionText o,
                    default false (QuizForm.dto_isCorrect o)))
           <$> QuizForm.dto_options qd)
        <$> QuizForm.dto_questions dto.
Proof.
  split_and!.
  - unfold QuizForm.handleQuizSave.
    change (QuizForm.form_id (QuizForm.handleCopyQuiz dto)) with (@None Z).
    destruct (_ || _); [done|]. by destruct (QuizForm.first_complaint _).
  - intros (Ht & Hq & Hf). unfold QuizForm.handleQuizSave.
    assert ((length (QuizForm.questions (QuizForm.handleCopyQuiz dto)) <? 1)%nat
            = false) as Hl.
    { by destruct (QuizForm.questions (QuizForm.handleCopyQuiz dto)). }
    apply first_complaint_None in Hf. by rewrite Ht, Hl, Hf.
  - done.
  - unfold QuizForm.handleCopyQuiz. simpl. apply Forall_fmap, Forall_true.
    intros qd. simpl. split_and!; [done| |].
    + apply Forall_fmap, Forall_true. done.
    + f_equal. symmetry.
      exact (findIndex_fmap
               (fun o =>
                  QuizForm.mkOption None (QuizForm.dto_optionText o)
                    (default false (QuizForm.dto_isCorrect o)))
               QuizForm.isCorrect (QuizForm.dto_options qd)).
  - unfold QuizForm.handleCopyQuiz. simpl. rewrite <- list_fmap_compose.
    apply list_fmap_ext. intros _ qd _. simpl.
    by rewrite <- list_fmap_compose.
Qed.

Lemma length_delete_bounds {A} (l : list A) (i : nat) :
  (length (delete i l) ≤ length l ≤ S (length (delete i l)))%nat.
Proof.
  revert i. induction l as [|x l IH]; intros [|i]; simpl; try lia.
  specialize (IH i). lia.
Qed.

(** No edit gives a question more than four options. *)
Lemma edit_at_most_four (e : QuizForm.Edit) (form : QuizForm.Form) :
  at_most_four form → at_most_four (QuizForm.edit e form).
Proof.
  unfold at_most_four. intros H.
  destruct e as [v|v|v|v|i v|i v|i v|i v|i oi|i oi v|i oi|i| i|]; simpl;
    [done|done|done|done|..|by apply Forall_delete|];
    try (apply Forall_alter; [done|]; intros q _ Hq; simpl).
  - done.
  - destruct (bool_decide (v = "TEXT")); simpl; [lia|done].
  - done.
  - by destruct (bool_decide (QuizForm.type q = "TEXT")).
  - destruct (_ && _); simpl; [|done]. by rewrite length_imap.
  - destruct (QuizForm.has_options q); simpl; [|done]. by rewrite length_alter.
  - destruct (_ && _); simpl; [|done].
    pose proof (length_delete_bounds (QuizForm.options q) oi). lia.
  - destruct (QuizForm.has_options q); simpl; [|done].
    destruct (Nat.ltb_spec (length (QuizForm.options q)) 4); simpl; [|done].
    rewrite length_app. simpl. lia.
  - apply Forall_app. split; [done|]. constructor; [simpl; lia | constructor].
Qed.

(** X17.  A form in which no question has more than four options stays so
    under every sequence of edits; and [Delete] takes one option away at
    most and leaves two where there were two or more. *)
Theorem X17_option_counts
    (form : QuizForm.Form) (es : list QuizForm.Edit) (i oi : nat) :
  at_most_four form →
  at_most_four (QuizForm.edits es form)
  ∧ Forall2
      (fun q q' =>
         (length (QuizForm.options q') ≤ length (QuizForm.options q))%nat
         ∧ (length (QuizForm.options q) ≤ S (length (QuizForm.options q')))%nat
         ∧ ((2 ≤ length (QuizForm.options q))%nat →
            (2 ≤ length (QuizForm.options q'))%nat))
      (QuizForm.questions form)
      (QuizForm.questions (QuizForm.edit (QuizForm.DeleteOption i oi) form)).
Proof.
  intros H. split.
  - revert form H. induction es as [|e es IH]; intros form H; [done|].
    apply (IH (QuizForm.edit e form)). by apply edit_at_most_four.
  - simpl. apply Forall2_alter_r.
    + apply Forall_Forall2_diag, Forall_true. intros q. simpl.
      split_and!; [lia | lia | done].
    + intros q q' Hq Hq' _. rewrite Hq in Hq'. injection Hq' as <-.
      destruct (QuizForm.has_options q); simpl; [|split_and!; [lia|lia|done]].
      destruct (Nat.ltb_spec 2 (length (QuizForm.options q))); simpl;
        [|split_and!; [lia|lia|done]].
      pose proof (length_delete_bounds (QuizForm.options q) oi). lia.
Qed.

(** From the empty form: a question is given three options; then two
    more are asked for and one is deleted. *)
Lemma X17_option_counts_example :
  at_most_four
    (QuizForm.edits
       [QuizForm.AddOption 0; QuizForm.AddOption 0; QuizForm.DeleteOption 0 1]
       (QuizForm.edits
          [QuizForm.AddQuestion; QuizForm.AddOption 0; QuizForm.AddOption 0]
          QuizForm.startCreateQuiz))
  ∧ Forall2
      (fun q q' =>
         (length (QuizForm.options q') ≤ length (QuizForm.options q))%nat
         ∧ (length (QuizForm.options q) ≤ S (length (QuizForm.options q')))%nat
         ∧ ((2 ≤ length (QuizForm.options q))%nat →
            (2 ≤ length (QuizForm.options q'))%nat))
      (QuizForm.questions
         (QuizForm.edits
            [QuizForm.AddQuestion; QuizForm.AddOption 0; QuizForm.AddOption 0]
            QuizForm.startCreateQuiz))
      (QuizForm.questions
         (QuizForm.edit (QuizForm.DeleteOption 0 1)
            (QuizForm.edits
               [QuizForm.AddQuestion; QuizForm.AddOption 0; QuizForm.AddOption 0]
               QuizForm.startCreateQuiz))).
Proof.
  apply (X17_option_counts
           (QuizForm.edits
              [QuizForm.AddQuestion; QuizForm.AddOption 0; QuizForm.AddOption 0]
              QuizForm.startCreateQuiz)
           [QuizForm.AddOption 0; QuizForm.AddOption 0; QuizForm.DeleteOption 0 1]
           0 1).
  constructor; [simpl; lia | constructor].
Defined.

(** * The clock of the attempt page *)

Lemma formatTime_length_5 (seconds : Z) :
  0 ≤ seconds < 6000 → String.length (Clock.formatTime seconds) = 5%nat.
Proof.
  intros Hs. unfold Clock.formatTime. cbv zeta.
  rewrite Z.rem_mod_nonneg by lia. rewrite !string_length_app.
  pose proof (Z.mod_pos_bound seconds 60).
  destruct (padStart_short (seconds `mod` 60)) as [-> _]; [lia|].
  destruct (padStart_short (seconds `div` 60)) as [-> _]; [|done].
  split; [apply Z.div_pos; lia|]. apply Z.div_lt_upper_bound; lia.
Qed.

(** X18.  Whatever happens to an attempt at a quiz of less than 100 minutes,
    its clock shows five characters, for a time that is not negative and not
    more than the time allowed. *)
Theorem X18_timer_fits (context : bool) (evs : list Event) (q : Quiz) :
  forallb loads_time evs = true →
  quiz (run evs (mount context)) = Some q →
  timeLimitMinutes q < 100 →
  String.length (Clock.timer (run evs (mount context))) = 5%nat
  ∧ ∃ t, Clock.timer (run evs (mount context)) = Clock.formatTime t
         ∧ 0 ≤ t ≤ timeLimitMinutes q * 60.
Proof.
  intros Hevs Hq Hlim.
  destruct (run_on_time evs (mount context) Hevs) as (_ & Ht & _).
  { destruct context; (split_and!; [done..|]); by repeat constructor. }
  destruct (Ht q Hq) as (H0 & t & Htr & Hr).
  unfold Clock.timer. rewrite Htr. simpl. split; [|eauto].
  apply formatTime_length_5. lia.
Qed.

(** The clock of [sample_quiz] after two ticks: 58 seconds. *)
Lemma X18_timer_fits_example :
  String.length
    (Clock.timer (run [QuizLoaded sample_quiz; Tick; Tick] (mount true))) = 5%nat
  ∧ ∃ t,
      Clock.timer (run [QuizLoaded sample_quiz; Tick; Tick] (mount true))
      = Clock.formatTime t
      ∧ 0 ≤ t ≤ timeLimitMinutes sample_quiz * 60.
Proof.
  apply (X18_timer_fits true [QuizLoaded sample_quiz; Tick; Tick] sample_quiz).
  - reflexivity.
  - reflexivity.
  - simpl. lia.
Defined.

(** * The figures of the score card *)

(** Up to 100 questions the card shows the exact percentage rounded half
    up, or one less when the exact percentage is a half. *)
Lemma percentage_cases (a : AttemptResult) :
  0 ≤ correctAnswers a ≤ totalQuestions a → 0 < totalQuestions a ≤ 100 →
  ∃ p, UserPanel.percentage (UserPanel.getScoreCard a) = JS.Integer p
       ∧ (p = round_half_up (100 * correctAnswers a) (totalQuestions a)
          ∨ (half_percent (correctAnswers a) (totalQuestions a) = true
             ∧ p = round_half_up (100 * correctAnswers a) (totalQuestions a) - 1)).
Proof.
  intros Hc Hn. pose proof (card_exact_small _ _ Hc Hn) as H.
  unfold card_exact in H.
  rewrite (getScoreCard_percentage_ext a
             (mkAttemptResult "" (correctAnswers a) (totalQuestions a) 0)) by done.
  destruct (UserPanel.percentage _) as [p| |]; try done. exists p.
  split; [done|]. apply Z.eqb_eq in H.
  destruct (Z.eqb_spec (40 * correctAnswers a) (23 * totalQuestions a)) as [He|];
    [right | by left].
  split; [|done]. unfold half_percent. apply Z.eqb_eq. symmetry.
  apply (Z.mod_unique _ _ 57); lia.
Qed.

Lemma round_half_up_bounds (c n : Z) :
  0 ≤ c ≤ n → 0 < n →
  0 ≤ round_half_up (100 * c) n ≤ 100
  ∧ (c = 0 → round_half_up (100 * c) n = 0)
  ∧ (c = n → round_half_up (100 * c) n = 100)
  ∧ (half_percent c n = true → 1 ≤ round_half_up (100 * c) n ∧ c ≠ 0 ∧ c ≠ n).
Proof.
  intros Hc Hn. unfold round_half_up, half_percent.
  split; [|split; [|split]].
  - split; [apply Z.div_pos; lia|].
    assert ((2 * (100 * c) + n) `div` (2 * n) < 101); [|lia].
    apply Z.div_lt_upper_bound; lia.
  - intros ->. apply Z.div_small. lia.
  - intros ->. symmetry. apply (Z.div_unique _ _ 100 n); lia.
  - intros Hh. apply Z.eqb_eq in Hh.
    pose proof (Z.mod_le (200 * c) (2 * n)) as Hle.
    assert (c ≠ 0) as Hc0.
    { intros ->. rewrite Z.mul_0_r, Z.mod_0_l in Hh by lia. lia. }
    assert (c ≠ n) as Hcn.
    { intros ->. replace (200 * n) with (100 * (2 * n)) in Hh by lia.
      rewrite Z.mod_mul in Hh by lia. lia. }
    split_and!; [|done..].
    apply Z.div_le_lower_bound; lia.
Qed.

Lemma round_half_up_step (c n : Z) :
  0 ≤ c → 0 < n ≤ 100 →
  round_half_up (100 * c) n + 1 ≤ round_half_up (100 * (c + 1)) n.
Proof.
  intros Hc Hn. unfold round_half_up.
  replace ((2 * (100 * c) + n) `div` (2 * n) + 1)
    with ((2 * (100 * c) + n + 1 * (2 * n)) `div` (2 * n))
    by (rewrite Z.div_add by lia; lia).
  apply Z.div_le_mono; lia.
Qed.

Lemma round_half_up_mono (c c' n : Z) :
  0 ≤ c ≤ c' → 0 < n →
  round_half_up (100 * c) n ≤ round_half_up (100 * c') n.
Proof. intros Hc Hn. unfold round_half_up. apply Z.div_le_mono; lia. Qed.

(** X19.  Up to 100 questions, the percentage of the card lies between 0 and
    100, is 0 for no correct answer and 100, in green, for all correct, and
    an attempt with more correct answers at the same quiz never shows a
    lower percentage. *)
Theorem X19_percentage_bounds (a b : AttemptResult) :
  totalQuestions a = totalQuestions b →
  0 ≤ correctAnswers a ≤ correctAnswers b →
  correctAnswers b ≤ totalQuestions b →
  0 < totalQuestions b ≤ 100 →
  ∃ p p',
    UserPanel.percentage (UserPanel.getScoreCard a) = JS.Integer p
    ∧ UserPanel.percentage (UserPanel.getScoreCard b) = JS.Integer p'
    ∧ 0 ≤ p ∧ p ≤ p' ∧ p' ≤ 100
    ∧ (correctAnswers a = 0 → p = 0)
    ∧ (correctAnswers b = totalQuestions b →
       p' = 100
       ∧ ScoreColor.scoreColor (UserPanel.percentage (UserPanel.getScoreCard b))
         = "#10b981").
Proof.
  intros Hn Ha Hb Hn'.
  destruct (percentage_cases a) as (p & Hp & Hpc); [lia..|].
  destruct (percentage_cases b) as (p' & Hp' & Hpc'); [lia..|].
  rewrite Hn in Hpc.
  set (n := totalQuestions b) in *.
  set (ca := correctAnswers a) in *. set (cb := correctAnswers b) in *.
  destruct (round_half_up_bounds ca n) as (Ba & Za & _ & Ta); [lia..|].
  destruct (round_half_up_bounds cb n) as (Bb & _ & Fb & Tb); [lia..|].
  exists p, p'. rewrite Hp'. split_and!; [done|done|..].
  - destruct Hpc as [->|[Hh ->]]; [lia|]. apply Ta in Hh. lia.
  - destruct (decide (ca = cb)) as [Heq|Hne].
    + assert (p = p'); [|lia].
      assert (UserPanel.percentage (UserPanel.getScoreCard a)
              = UserPanel.percentage (UserPanel.getScoreCard b)) as He.
      { by apply getScoreCard_percentage_ext. }
      rewrite Hp, Hp' in He. by injection He.
    + pose proof (round_half_up_step ca n ltac:(lia) ltac:(lia)).
      pose proof (round_half_up_mono (ca + 1) cb n ltac:(lia) ltac:(lia)).
      destruct Hpc as [->|[_ ->]], Hpc' as [->|[_ ->]]; lia.
  - destruct Hpc' as [->|[_ ->]]; lia.
  - intros H0. destruct Hpc as [->|[Hh ->]]; [by apply Za|].
    apply Ta in Hh. lia.
  - intros Hall. assert (p' = 100) as ->.
    { destruct Hpc' as [->|[Hh ->]]; [by apply Fb|]. apply Tb in Hh. lia. }
    done.
Qed.

(** 7 of 10 and 10 of 10. *)
Lemma X19_percentage_bounds_example :
  ∃ p p',
    UserPanel.percentage (UserPanel.getScoreCard (mkAttemptResult "ann" 7 10 70))
    = JS.Integer p
    ∧ UserPanel.percentage
        (UserPanel.getScoreCard (mkAttemptResult "bob" 10 10 100))
      = JS.Integer p'
    ∧ 0 ≤ p ∧ p ≤ p' ∧ p' ≤ 100
    ∧ (7 = 0 → p = 0)
    ∧ (10 = 10 →
       p' = 100
       ∧ ScoreColor.scoreColor
           (UserPanel.percentage
              (UserPanel.getScoreCard (mkAttemptResult "bob" 10 10 100)))
         = "#10b981").
Proof.
  apply (X19_percentage_bounds (mkAttemptResult "ann" 7 10 70)
           (mkAttemptResult "bob" 10 10 100)); simpl; lia.
Defined.

(** * The search of the quiz list *)

Lemma string_app_assoc (a b c : string) : (a +:+ b) +:+ c = a +:+ (b +:+ c).
Proof.
  induction a as [|x a IH]; [done|].
  change (String x ((a +:+ b) +:+ c) = String x (a +:+ (b +:+ c))).
  by rewrite IH.
Qed.

Lemma starts_with_spec (needle hay : string) :
  Text.starts_with needle hay = true ↔ ∃ s, hay = needle +:+ s.
Proof.
  revert hay. induction needle as [|a needle IH]; intros hay.
  - split; [intros _; by exists hay|done].
  - destruct hay as [|b hay]; simpl.
    + split; [done|]. by intros [s Hs].
    + rewrite andb_true_iff, IH, Ascii.eqb_eq. split.
      * intros [-> [s ->]]. by exists s.
      * intros [s [= -> ->]]. split; [done|]. by exists s.
Qed.

(** [includes] holds exactly of the strings that have [needle] between
    a beginning and an end. *)
Lemma includes_spec (needle hay : string) :
  Text.includes needle hay = true ↔ ∃ p s, hay = p +:+ (needle +:+ s).
Proof.
  induction hay as [|b hay IH].
  - simpl. rewrite orb_false_r, starts_with_spec. split.
    + intros [s Hs]. by exists "", s.
    + intros (p & s & Hs). destruct p; [by exists s|done].
  - change (Text.includes needle (String b hay))
      with (Text.starts_with needle (String b hay) || Text.includes needle hay).
    rewrite orb_true_iff, starts_with_spec, IH. split.
    + intros [[s Hs]|(p & s & ->)]; [by exists "", s|].
      by exists (String b p), s.
    + intros ([|c p] & s & Hs); [left; by exists s|].
      right. injection Hs as -> ->. by exists p, s.
Qed.

Lemma string_app_nil_r (s : string) : s +:+ "" = s.
Proof.
  induction s as [|a s IH]; [done|].
  change (String a (s +:+ "") = String a s). by rewrite IH.
Qed.

Lemma includes_refl (s : string) : Text.includes s s = true.
Proof.
  apply includes_spec. exists "", "".
  change (s = s +:+ ""). by rewrite string_app_nil_r.
Qed.

Lemma includes_trans (a b c : string) :
  Text.includes a b = true → Text.includes b c = true →
  Text.includes a c = true.
Proof.
  rewrite !includes_spec. intros (p1 & s1 & ->) (p2 & s2 & ->).
  exists (p2 +:+ p1), (s1 +:+ s2). by rewrite !string_app_assoc.
Qed.

Lemma filter_sublist_impl {A} (f g : A → bool) (l : list A) :
  (∀ x, f x = true → g x = true) →
  sublist (List.filter f l) (List.filter g l).
Proof.
  intros Hfg. induction l as [|x l IH]; simpl; [done|].
  destruct (f x) eqn:Ef.
  - rewrite (Hfg x Ef). by apply sublist_skip.
  - destruct (g x); [by apply sublist_cons|done].
Qed.

Lemma filter_sublist {A} (f : A → bool) (l : list A) :
  sublist (List.filter f l) l.
Proof.
  induction l as [|x l IH]; simpl; [done|].
  destruct (f x); [by apply sublist_skip | by apply sublist_cons].
Qed.

(** X20.  The quizzes listed for a term are some of the quizzes, in their
    order, and all of them when the term is blank.  A term that includes
    another, cases apart, lists no quiz that the other does not list: typing
    on narrows the list.  A quiz whose title is the term is listed. *)
Theorem X20_search_narrows
    (toLowerCase : string → string) (t1 t2 : string)
    (quizzes : list Quiz) (q : Quiz) :
  Text.blank t2 = false →
  Text.includes (toLowerCase t1) (toLowerCase t2) = true →
  sublist (Search.filteredQuizzes toLowerCase t2 quizzes)
    (Search.filteredQuizzes toLowerCase t1 quizzes)
  ∧ sublist (Search.filteredQuizzes toLowerCase t1 quizzes) quizzes
  ∧ (Text.blank t1 = true →
     Search.filteredQuizzes toLowerCase t1 quizzes = quizzes)
  ∧ (q ∈ quizzes → title q = t2 →
     q ∈ Search.filteredQuizzes toLowerCase t2 quizzes).
Proof.
  intros Hb Hinc. unfold Search.filteredQuizzes. rewrite Hb. split_and!.
  - destruct (Text.blank t1); [apply filter_sublist|].
    apply filter_sublist_impl. intros x Hx. by eapply includes_trans.
  - destruct (Text.blank t1); [done | apply filter_sublist].
  - by intros ->.
  - intros Hq Ht. apply list_elem_of_In, filter_In. split.
    + by apply list_elem_of_In.
    + rewrite Ht. apply includes_refl.
Qed.

(** Typing on: every quiz listed for [Rivers] is listed for [riv]. *)
Lemma X20_search_narrows_example :
  let quizzes :=
    [ {| title := "Rivers of Asia"; timeLimitMinutes := 10; questions := [] |};
      {| title := "Rivers"; timeLimitMinutes := 5; questions := [] |};
      {| title := "Arrival"; timeLimitMinutes := 5; questions := [] |};
      {| title := "Lakes"; timeLimitMinutes := 5; questions := [] |} ] in
  let q := {| title := "Rivers"; timeLimitMinutes := 5; questions := [] |} in
  sublist (Search.filteredQuizzes lower "Rivers" quizzes)
    (Search.filteredQuizzes lower "riv" quizzes)
  ∧ sublist (Search.filteredQuizzes lower "riv" quizzes) quizzes
  ∧ (Text.blank "riv" = true →
     Search.filteredQuizzes lower "riv" quizzes = quizzes)
  ∧ (q ∈ quizzes → title q = "Rivers" →
     q ∈ Search.filteredQuizzes lower "Rivers" quizzes).
Proof.
  intros quizzes q.
  exact (X20_search_narrows lower "riv" "Rivers" quizzes q eq_refl eq_refl).
Defined.
